(** * Object Recognition API (server.py): response normalisation and endpoint

    A shallow embedding of the request handler [analyze_image] and of its two
    helpers [create_fallback_result] and [validate_result].

    Python values are embedded as the inductive [pyval]; a [str] is the list
    of its code points; a [dict] with string keys is a [gmap].  The calls that
    leave the repository ([str.lower] beyond ASCII, [json.loads],
    [base64.b64decode], [PIL.Image.open], the Gemini client) are the fields of
    the class [Runtime]: every theorem holds for every runtime. *)

From Stdlib Require Import Floats.
From stdpp Require Import gmap list strings.

Set Warnings "-register-all".

(** ** Python values *)

Abbreviation str := (list N).
Abbreviation bytes := (list Byte.byte).

Inductive pyval : Type :=
  | PNone
  | PBool (b : bool)
  | PInt (z : Z)
  | PFloat (f : float)
  | PStr (s : str)
  | PList (l : list pyval)
  | PDict (d : gmap str pyval).

Abbreviation dict := (gmap str pyval).

#[export] Instance pyval_inhabited : Inhabited pyval := populate PNone.

(** String literals of the source.  [lit] reads a literal code point by code
    point; [litq] is for the literals that contain double quotes, which are
    written here with a backquote in their place. *)
Fixpoint lit (s : String.string) : str :=
  match s with
  | String.EmptyString => []
  | String.String a r => Ascii.N_of_ascii a :: lit r
  end.
Arguments lit s%_string.

Definition litq (s : String.string) : str :=
  (λ c, if (c =? 96)%N then 34%N else c) <$> lit s.
Arguments litq s%_string.

(** [bool(v)]: the truth value of a Python object. *)
Definition py_bool (v : pyval) : bool :=
  match v with
  | PNone => false
  | PBool b => b
  | PInt z => negb (z =? 0)%Z
  | PFloat f => negb (PrimFloat.eqb f 0%float)
  | PStr s => match s with [] => false | _ => true end
  | PList l => match l with [] => false | _ => true end
  | PDict d => negb (bool_decide (d = ∅))
  end.

(** [v == s] for a str [s]: only an equal str compares equal to a str. *)
Definition py_eq_str (v : pyval) (s : str) : bool :=
  match v with
  | PStr t => bool_decide (t = s)
  | _ => false
  end.

(** [v in [s1, s2, ...]] for a list of str. *)
Definition py_in_strs (v : pyval) (l : list str) : bool :=
  existsb (py_eq_str v) l.

(** [isinstance(v, list)] *)
Definition isinstance_list (v : pyval) : bool :=
  match v with
  | PList _ => true
  | _ => false
  end.

(** ** str operations *)

(** [s.startswith(p)] *)
Fixpoint starts_with (p s : str) : bool :=
  match p, s with
  | [], _ => true
  | _ :: _, [] => false
  | a :: p', b :: s' => (a =? b)%N && starts_with p' s'
  end.

(** [needle in hay] on two str: substring test. *)
Fixpoint str_in (needle hay : str) : bool :=
  starts_with needle hay ||
  match hay with
  | [] => false
  | _ :: hay' => str_in needle hay'
  end.

(** [s.split(sep)] for a one-character separator: every occurrence splits. *)
Fixpoint str_split (sep : N) (s : str) : list str :=
  match s with
  | [] => [[]]
  | c :: s' =>
      if (c =? sep)%N then [] :: str_split sep s'
      else match str_split sep s' with
           | [] => [[c]]
           | x :: xs => (c :: x) :: xs
           end
  end.

(** ASCII part of [str.lower]: 'A'..'Z' move to 'a'..'z'. *)
Definition ascii_lower (c : N) : N :=
  if (65 <=? c)%N && (c <=? 90)%N then (c + 32)%N else c.

(** ** The world outside the repository *)

Inductive exn : Type :=
  | AttributeError (obj : pyval) (attr : str)
  | TypeError (obj : pyval)
  | IndexError
  | ValueError (msg : str)
  | RecursionError (msg : str)
  | UpstreamError (msg : str).

Inductive outcome (A : Type) : Type :=
  | Return (a : A)
  | Raise (e : exn).
Arguments Return {A} a.
Arguments Raise {A} e.

#[export] Instance outcome_ret : MRet outcome := λ A a, Return a.
#[export] Instance outcome_fmap : FMap outcome := λ A B f m,
  match m with
  | Return a => Return (f a)
  | Raise e => Raise e
  end.
#[export] Instance outcome_bind : MBind outcome := λ A B k m,
  match m with
  | Return a => k a
  | Raise e => Raise e
  end.

(** What a call of [json.loads] does: it returns a value, or raises
    [json.JSONDecodeError], or raises something else ([ValueError] on an
    integer with more digits than [int] converts, [RecursionError] on deep
    nesting). *)
Inductive loaded : Type :=
  | Loaded (v : pyval)
  | JSONDecodeError
  | LoadsRaises (e : exn).

Class Runtime : Type := {
  (** lowercase mapping of the non-ASCII code point [c] found at index [i] of
      [text] (Unicode's full mapping; the capital sigma looks at its
      neighbours, hence the context) *)
  unicode_lower : str → nat → N → str;
  (** [str(v)] of a value that is not a str, as an f-string formats it *)
  str_value : pyval → str;
  (** [str(e)] of an exception *)
  str_exn : exn → str;
  (** [json.loads] *)
  json_loads : str → loaded;
  (** [base64.b64decode] on a str; [None] is any exception it raises *)
  b64decode_str : str → option bytes;
  (** what [Image.open] returns *)
  image : Type;
  (** [Image.open(io.BytesIO(b))]; [None] is any exception it raises *)
  image_open : bytes → option image;
  (** [model.generate_content([prompt, image]).text] *)
  generate_content : str → image → outcome str
}.

Section Server.
Context `{RT : Runtime}.

(** [text.lower()]: code point by code point, ASCII by [ascii_lower]. *)
Fixpoint lower_from (text : str) (i : nat) (rest : str) : str :=
  match rest with
  | [] => []
  | c :: rest' =>
      (if (c <? 128)%N then [ascii_lower c] else unicode_lower text i c)
      ++ lower_from text (S i) rest'
  end.

Definition str_lower (text : str) : str := lower_from text 0 text.

(** ** create_fallback_result *)

Definition found_keywords : list str :=
  [lit "yes"; lit "found"; lit "present"; lit "visible"; lit "see"; lit "true"].

Definition not_found_keywords : list str :=
  [lit "no"; lit "not found"; lit "absent"; lit "cannot"; lit "false"].

(** [for keyword in keywords: if keyword in text_lower: found = hit; break] *)
Fixpoint scan_keywords (keywords : list str) (text_lower : str)
    (hit : bool) (found : bool) : bool :=
  match keywords with
  | [] => found
  | keyword :: keywords' =>
      if str_in keyword text_lower then hit
      else scan_keywords keywords' text_lower hit found
  end.

Definition fallback_found (text : str) : bool :=
  let text_lower := str_lower text in
  let found := false in
  let found := scan_keywords found_keywords text_lower true found in
  let found := scan_keywords not_found_keywords text_lower false found in
  found.

Definition create_fallback_result (text : str) (object_name : pyval) : dict :=
  let found := fallback_found text in
  <[lit "found" := PBool found]> (
  <[lit "confidence" := PStr (lit "medium")]> (
  <[lit "description" := PStr (take 500 text)]> (
  <[lit "location" :=
      PStr (if found then lit "See description" else lit "Not applicable")]> (
  <[lit "additional_objects" := PList []]> ∅)))).

(** ** validate_result *)

(** [d.get(key, default)] *)
Definition dict_get (d : dict) (key : str) (default : pyval) : pyval :=
  match d !! key with
  | Some v => v
  | None => default
  end.

(** lines 162-168: the dict literal *)
Definition collect_fields (result : dict) : dict :=
  <[lit "found" := PBool (py_bool (dict_get result (lit "found") (PBool false)))]> (
  <[lit "confidence" := dict_get result (lit "confidence") (PStr (lit "medium"))]> (
  <[lit "description" :=
      dict_get result (lit "description") (PStr (lit "No description available"))]> (
  <[lit "location" := dict_get result (lit "location") (PStr (lit "Unknown"))]> (
  <[lit "additional_objects" :=
      dict_get result (lit "additional_objects") (PList [])]> ∅)))).

(** lines 170-172: "Ensure confidence is valid" *)
Definition ensure_confidence (validated : dict) : dict :=
  if negb (py_in_strs (validated !!! lit "confidence")
             [lit "high"; lit "medium"; lit "low"])
  then <[lit "confidence" := PStr (lit "medium")]> validated
  else validated.

(** lines 174-176: "Ensure additional_objects is a list" *)
Definition ensure_objects_list (validated : dict) : dict :=
  if negb (isinstance_list (validated !!! lit "additional_objects"))
  then <[lit "additional_objects" := PList []]> validated
  else validated.

Definition validate_result (result : dict) : dict :=
  let validated := collect_fields result in
  let validated := ensure_confidence validated in
  let validated := ensure_objects_list validated in
  validated.

(** ** Locating the JSON span: [re.search(r'\{[\s\S]*\}', result_text)] *)

Definition lbrace : N := 123.
Definition rbrace : N := 125.

(** [[\s\S]*\}] matched at the head of [s], greedily: the star first takes
    all of [s] and gives characters back until a closing brace follows, so the
    match is the longest prefix of [s] that ends with a closing brace. *)
Fixpoint greedy_until_rbrace (s : str) : option str :=
  match s with
  | [] => None
  | c :: s' =>
      match greedy_until_rbrace s' with
      | Some m => Some (c :: m)
      | None => if (c =? rbrace)%N then Some [c] else None
      end
  end.

(** the pattern matched at the head of [s] *)
Definition match_here (s : str) : option str :=
  match s with
  | [] => None
  | c :: s' =>
      if (c =? lbrace)%N then (c ::.) <$> greedy_until_rbrace s' else None
  end.

(** [re.search]: the match at the leftmost position that has one;
    [json_match.group(0)] is the matched text. *)
Fixpoint re_search (text : str) : option str :=
  match match_here text with
  | Some m => Some m
  | None =>
      match text with
      | [] => None
      | _ :: text' => re_search text'
      end
  end.

Definition json_match (result_text : str) : option str := re_search result_text.

(** ** analyze_image *)

Record response : Type := Response { status : Z; body : dict }.

(** [jsonify({'error': msg, 'success': False}), code] *)
Definition error_response (msg : str) (code : Z) : response :=
  Response code (<[lit "error" := PStr msg]> (<[lit "success" := PBool false]> ∅)).

(** [jsonify({'success': True, 'result': result})], status 200 *)
Definition success_response (result : dict) : response :=
  Response 200 (<[lit "success" := PBool true]> (<[lit "result" := PDict result]> ∅)).

(** [v.get]: only a dict has the method *)
Definition py_get_method (v : pyval) : outcome dict :=
  match v with
  | PDict d => Return d
  | _ => Raise (AttributeError v (lit "get"))
  end.

(** [needle in v] for a str [needle] *)
Definition py_contains (needle : str) (v : pyval) : outcome bool :=
  match v with
  | PStr s => Return (str_in needle s)
  | PList l => Return (existsb (λ x, py_eq_str x needle) l)
  | PDict d => Return (bool_decide (is_Some (d !! needle)))
  | _ => Raise (TypeError v)
  end.

(** [v.split(sep)]: only a str has the method *)
Definition py_split (sep : N) (v : pyval) : outcome (list str) :=
  match v with
  | PStr s => Return (str_split sep s)
  | _ => Raise (AttributeError v (lit "split"))
  end.

(** [l[i]] *)
Definition py_index (l : list str) (i : nat) : outcome str :=
  match l !! i with
  | Some x => Return x
  | None => Raise IndexError
  end.

Definition comma : N := 44.

(** lines 63-64: [if ',' in image_data: image_data = image_data.split(',')[1]] *)
Definition strip_data_url_prefix (image_data : pyval) : outcome pyval :=
  has_comma ← py_contains [comma] image_data;
  if has_comma : bool then
    parts ← py_split comma image_data;
    PStr <$> py_index parts 1
  else Return image_data.

(** [base64.b64decode(v)]: a value that is not a str raises TypeError *)
Definition b64decode (v : pyval) : option bytes :=
  match v with
  | PStr s => b64decode_str s
  | _ => None
  end.

(** [f"{v}"] *)
Definition format_value (v : pyval) : str :=
  match v with
  | PStr s => s
  | _ => str_value v
  end.

Definition nl : str := [10%N].

Definition build_prompt (object_name : pyval) : str :=
  litq "Analyze this image carefully and determine if there is a `"
  ++ format_value object_name ++ litq "` present in the image." ++ nl
  ++ nl
  ++ lit "Respond ONLY in valid JSON format with the following structure (no additional text before or after):" ++ nl
  ++ lit "{" ++ nl
  ++ litq "    `found`: true or false," ++ nl
  ++ litq "    `confidence`: `high` or `medium` or `low`," ++ nl
  ++ litq "    `description`: `brief description of what you see related to the object or why it wasn't found`," ++ nl
  ++ litq "    `location`: `specific location in the image where the object is found, or 'Not applicable' if not found`," ++ nl
  ++ litq "    `additional_objects`: [`list`, `of`, `other`, `notable`, `objects`]" ++ nl
  ++ lit "}" ++ nl
  ++ nl
  ++ litq "Be precise and accurate in your analysis. Only set `found` to true if you are confident the "
  ++ format_value object_name ++ lit " is actually present in the image.".

(** lines 105-116: the reply as a Python value, parsed or synthesised; the
    [except] of line 111 catches [json.JSONDecodeError] and nothing else *)
Definition parse_reply (result_text : str) (object_name : pyval)
    : outcome pyval :=
  match json_match result_text with
  | Some span =>
      match json_loads span with
      | Loaded result => Return result
      | JSONDecodeError =>
          Return (PDict (create_fallback_result result_text object_name))
      | LoadsRaises e => Raise e
      end
  | None => Return (PDict (create_fallback_result result_text object_name))
  end.

(** lines 105-124: from the model's reply to the response *)
Definition respond (result_text : str) (object_name : pyval) : outcome response :=
  result ← parse_reply result_text object_name;
  result ← py_get_method result;
  let result := validate_result result in
  Return (success_response result).

(** the body of the outer [try] *)
Definition analyze_image_try (data : pyval) : outcome response :=
  data ← py_get_method data;
  let image_data := dict_get data (lit "image") PNone in
  let object_name := dict_get data (lit "object_name") PNone in
  if negb (py_bool image_data) || negb (py_bool object_name) then
    Return (error_response (lit "Missing required fields: image and object_name") 400)
  else
    image_data ← strip_data_url_prefix image_data;
    match b64decode image_data with
    | None => Return (error_response (lit "Invalid base64 image data") 400)
    | Some image_bytes =>
        match image_open image_bytes with
        | None => Return (error_response (lit "Invalid image format") 400)
        | Some image =>
            let prompt := build_prompt object_name in
            result_text ← generate_content prompt image;
            respond result_text object_name
        end
    end.

Definition analyze_image (data : pyval) : response :=
  match analyze_image_try data with
  | Return r => r
  | Raise e => error_response (lit "Server error: " ++ str_exn e) 500
  end.

End Server.

(** * What the properties are stated with *)

(** [contains k t]: the text [t] has an occurrence of [k]. *)
Definition contains (k t : str) : Prop := ∃ pre post, t = pre ++ k ++ post.

(** below 128 and not 'A'..'Z' *)
Definition unchanged_by_lower (c : N) : bool :=
  (c <? 128)%N && negb ((65 <=? c)%N && (c <=? 90)%N).

(** The balanced-brace span in the words of the specification: the substring
    that begins at the first opening brace and ends at its matching closing
    brace, found by a scan that counts the depth.  [closing_from depth s] is
    the part of [s] up to the brace that closes [depth + 1] open ones. *)
Fixpoint closing_from (depth : nat) (s : str) : option str :=
  match s with
  | [] => None
  | c :: s' =>
      if (c =? lbrace)%N then (c ::.) <$> closing_from (S depth) s'
      else if (c =? rbrace)%N then
        match depth with
        | O => Some [c]
        | S depth' => (c ::.) <$> closing_from depth' s'
        end
      else (c ::.) <$> closing_from depth s'
  end.

Fixpoint first_balanced_span (text : str) : option str :=
  match text with
  | [] => None
  | c :: text' =>
      if (c =? lbrace)%N then (c ::.) <$> closing_from 0 text'
      else first_balanced_span text'
  end.

(** What follows the first [sep] of [s], in the words of the specification:
    the prefix up to and including the first comma is stripped. *)
Fixpoint after_first (sep : N) (s : str) : str :=
  match s with
  | [] => []
  | c :: s' => if (c =? sep)%N then s' else after_first sep s'
  end.

(** the confidence that validation lets through *)
Definition valid_confidence (v : pyval) : pyval :=
  if py_in_strs v [lit "high"; lit "medium"; lit "low"] then v
  else PStr (lit "medium").

(** the additional objects that validation lets through *)
Definition valid_objects (v : pyval) : pyval :=
  if isinstance_list v then v else PList [].

(** the keys of an AnalysisResult *)
Definition result_keys : list str :=
  [lit "found"; lit "confidence"; lit "description"; lit "location";
   lit "additional_objects"].

(** A fully populated AnalysisResult: the five fields are present and the
    confidence is one of the three levels. *)
Definition populated (v : dict) : Prop :=
  is_Some (v !! lit "found")
  ∧ is_Some (v !! lit "confidence")
  ∧ is_Some (v !! lit "description")
  ∧ is_Some (v !! lit "location")
  ∧ is_Some (v !! lit "additional_objects")
  ∧ (v !! lit "confidence" = Some (PStr (lit "high"))
     ∨ v !! lit "confidence" = Some (PStr (lit "medium"))
     ∨ v !! lit "confidence" = Some (PStr (lit "low"))).

(** [v] is a list whose elements are all str *)
Definition is_str_list (v : pyval) : bool :=
  match v with
  | PList l => forallb (λ x, match x with PStr _ => true | _ => false end) l
  | _ => false
  end.

(** ** A runtime to run the handler on examples

    ASCII replies, a reader for a fragment of JSON (objects, arrays, strings
    without escapes, integers up to the digit limit of [int], true, false,
    null), the base64 decoder in its default mode, and an image library that
    accepts what begins with the PNG signature.  The model's reply is the
    parameter. *)

Definition is_ws (c : N) : bool :=
  (c =? 32)%N || (c =? 9)%N || (c =? 10)%N || (c =? 13)%N.

Fixpoint skip_ws (s : str) : str :=
  match s with
  | [] => []
  | c :: s' => if is_ws c then skip_ws s' else s
  end.

Definition is_digit (c : N) : bool := (48 <=? c)%N && (c <=? 57)%N.

(** What scanning a piece of JSON gives: the piece with what follows it, a
    syntax error, or an integer with more digits than [int] converts. *)
Inductive scanned (A : Type) : Type :=
  | Scanned (a : A)
  | Malformed
  | OverDigitLimit.
Arguments Scanned {A} a.
Arguments Malformed {A}.
Arguments OverDigitLimit {A}.

#[export] Instance scanned_bind : MBind scanned := λ A B k m,
  match m with
  | Scanned a => k a
  | Malformed => Malformed
  | OverDigitLimit => OverDigitLimit
  end.

(** the rest of a string after its opening quote: its content and what
    follows the closing quote *)
Fixpoint scan_string (s : str) : scanned (str * str) :=
  match s with
  | [] => Malformed
  | c :: s' =>
      if (c =? 34)%N then Scanned ([], s')
      else if (c =? 92)%N || (c <? 32)%N then Malformed
      else '(content, rest) ← scan_string s'; Scanned (c :: content, rest)
  end.

(** the digits at the head of [s]: their value, their number, what follows *)
Fixpoint scan_digits (s : str) (acc : Z) (digits : nat) : Z * nat * str :=
  match s with
  | [] => (acc, digits, [])
  | c :: s' =>
      if is_digit c
      then scan_digits s' (10 * acc + (Z.of_N c - 48))%Z (S digits)
      else (acc, digits, s)
  end.

(** the most digits that [int] converts by default *)
Definition int_max_str_digits : nat := 4300.

(** an integer; a fraction or an exponent is outside the fragment, and an
    integer over the digit limit makes [int] raise *)
Definition scan_int (s : str) : scanned (Z * str) :=
  let '(negative, s1) :=
    match s with
    | c :: s' => if (c =? 45)%N then (true, s') else (false, s)
    | [] => (false, [])
    end in
  let finish (n : Z) (digits : nat) (rest : str) : scanned (Z * str) :=
    match rest with
    | c :: _ =>
        if (c =? 46)%N || (c =? 101)%N || (c =? 69)%N then Malformed
        else if int_max_str_digits <? digits then OverDigitLimit
        else Scanned (if negative then (- n)%Z else n, rest)
    | [] =>
        if int_max_str_digits <? digits then OverDigitLimit
        else Scanned (if negative then (- n)%Z else n, [])
    end in
  match s1 with
  | [] => Malformed
  | c :: s2 =>
      if (c =? 48)%N then finish 0%Z 1 s2
      else if is_digit c then
        let '(n, digits, rest) := scan_digits s1 0 0 in finish n digits rest
      else Malformed
  end.

Fixpoint scan_value (fuel : nat) (s : str) : scanned (pyval * str) :=
  match fuel with
  | O => Malformed
  | S fuel =>
      match s with
      | [] => Malformed
      | c :: s' =>
          if (c =? 34)%N then
            '(content, rest) ← scan_string s'; Scanned (PStr content, rest)
          else if (c =? 123)%N then
            match skip_ws s' with
            | [] => Malformed
            | c' :: rest =>
                if (c' =? 125)%N then Scanned (PDict ∅, rest)
                else scan_members fuel (c' :: rest) ∅
            end
          else if (c =? 91)%N then
            match skip_ws s' with
            | [] => Malformed
            | c' :: rest =>
                if (c' =? 93)%N then Scanned (PList [], rest)
                else scan_elements fuel (c' :: rest) []
            end
          else if starts_with (lit "true") s then Scanned (PBool true, drop 4 s)
          else if starts_with (lit "false") s then Scanned (PBool false, drop 5 s)
          else if starts_with (lit "null") s then Scanned (PNone, drop 4 s)
          else '(n, rest) ← scan_int s; Scanned (PInt n, rest)
      end
  end
with scan_members (fuel : nat) (s : str) (members : dict)
    : scanned (pyval * str) :=
  match fuel with
  | O => Malformed
  | S fuel =>
      match s with
      | [] => Malformed
      | c :: s1 =>
          if (c =? 34)%N then
            '(key, s2) ← scan_string s1;
            match skip_ws s2 with
            | [] => Malformed
            | c2 :: s3 =>
                if (c2 =? 58)%N then
                  '(v, s4) ← scan_value fuel (skip_ws s3);
                  let members := <[key := v]> members in
                  match skip_ws s4 with
                  | [] => Malformed
                  | c4 :: s5 =>
                      if (c4 =? 125)%N then Scanned (PDict members, s5)
                      else if (c4 =? 44)%N then
                        scan_members fuel (skip_ws s5) members
                      else Malformed
                  end
                else Malformed
            end
          else Malformed
      end
  end
with scan_elements (fuel : nat) (s : str) (elements : list pyval)
    : scanned (pyval * str) :=
  match fuel with
  | O => Malformed
  | S fuel =>
      '(v, s1) ← scan_value fuel s;
      let elements := elements ++ [v] in
      match skip_ws s1 with
      | [] => Malformed
      | c :: s2 =>
          if (c =? 93)%N then Scanned (PList elements, s2)
          else if (c =? 44)%N then scan_elements fuel (skip_ws s2) elements
          else Malformed
      end
  end.

Definition json_fragment_loads (s : str) : loaded :=
  match scan_value (S (length s)) (skip_ws s) with
  | Scanned (v, rest) =>
      match skip_ws rest with
      | [] => Loaded v
      | _ :: _ => JSONDecodeError
      end
  | Malformed => JSONDecodeError
  | OverDigitLimit =>
      LoadsRaises
        (ValueError
           (lit "Exceeds the limit (4300 digits) for integer string conversion"))
  end.

(** the value of a character of the base64 alphabet *)
Definition b64_digit (c : N) : option N :=
  if (65 <=? c)%N && (c <=? 90)%N then Some (c - 65)%N
  else if (97 <=? c)%N && (c <=? 122)%N then Some (c - 71)%N
  else if (48 <=? c)%N && (c <=? 57)%N then Some (c + 4)%N
  else if (c =? 43)%N then Some 62%N
  else if (c =? 47)%N then Some 63%N
  else None.

Definition byte_of_N (n : N) : Byte.byte := default Byte.x00 (Byte.of_N n).

(** The decoder behind [base64.b64decode] in its default mode: characters
    outside the alphabet are skipped, a complete padding ends the data, and
    what is left of a quantum at the end is an error. *)
Fixpoint a2b_base64 (s : str) (quad_pos : nat) (leftchar : N) (pads : nat)
    : option bytes :=
  match s with
  | [] => if decide (quad_pos = 0) then Some [] else None
  | c :: s' =>
      if (c =? 61)%N then
        if (2 <=? quad_pos) && (4 <=? quad_pos + S pads) then Some []
        else a2b_base64 s' quad_pos leftchar
               (if 2 <=? quad_pos then S pads else pads)
      else
        match b64_digit c with
        | None => a2b_base64 s' quad_pos leftchar pads
        | Some d =>
            match quad_pos with
            | 0 => a2b_base64 s' 1 d 0
            | 1 =>
                (byte_of_N (N.lor (N.shiftl leftchar 2) (N.shiftr d 4)) ::.)
                <$> a2b_base64 s' 2 (N.land d 15) 0
            | 2 =>
                (byte_of_N (N.lor (N.shiftl leftchar 4) (N.shiftr d 2)) ::.)
                <$> a2b_base64 s' 3 (N.land d 3) 0
            | _ =>
                (byte_of_N (N.lor (N.shiftl leftchar 6) d) ::.)
                <$> a2b_base64 s' 0 0%N 0
            end
        end
  end.

Definition b64decode_default (s : str) : option bytes :=
  if forallb (λ c, (c <? 128)%N) s then a2b_base64 s 0 0%N 0 else None.

Definition png_signature : list N := [137; 80; 78; 71; 13; 10; 26; 10]%N.

Definition example_runtime (reply : outcome str) : Runtime := {|
  unicode_lower := λ _ _ c, [c];
  str_value := λ _, lit "<object>";
  str_exn := λ e,
    match e with
    | UpstreamError msg | ValueError msg | RecursionError msg => msg
    | _ => lit "<error>"
    end;
  json_loads := json_fragment_loads;
  b64decode_str := b64decode_default;
  image := bytes;
  image_open := λ b,
    if bool_decide (Byte.to_N <$> take 8 b = png_signature) then Some b
    else None;
  generate_content := λ _ _, reply
|}.

(** a request with the PNG signature as image and "cat" as object name *)
Definition cat_request : dict :=
  <[lit "image" := PStr (lit "data:image/png;base64,iVBORw0KGgo=")]> (
  <[lit "object_name" := PStr (lit "cat")]> ∅).

(** a reply whose span holds an integer of 4301 digits *)
Definition overlong_reply : str :=
  litq "{`found`: " ++ replicate 4301 49%N ++ lit "}".

(** ** The liveness endpoints *)

(** [GEMINI_API_KEY] as the source ships it, to be replaced by a real key *)
Definition api_key_placeholder : str := lit "Your-API-Key".

(** [index()] *)
Definition index : response :=
  Response 200 (
    <[lit "status" := PStr (lit "online")]> (
    <[lit "message" := PStr (lit "Object Recognition API is running")]> (
    <[lit "version" := PStr (lit "1.0")]> ∅))).

(** [health_check()], with the module's [GEMINI_API_KEY] as argument *)
Definition health_check (GEMINI_API_KEY : str) : response :=
  let api_configured := negb (bool_decide (GEMINI_API_KEY = api_key_placeholder)) in
  Response 200 (
    <[lit "status" := PStr (lit "healthy")]> (
    <[lit "api_configured" := PBool api_configured]> (
    <[lit "model" := PStr (lit "gemini-1.5-flash")]> ∅))).

(** * Properties *)

(** ** Substrings *)

Lemma starts_with_spec (p s : str) :
  starts_with p s = true ↔ ∃ post, s = p ++ post.
Proof.
  revert s. induction p as [|a p IH]; intros s; simpl.
  - split; [intros _; by exists s | done].
  - destruct s as [|b s].
    + split; [done | intros [post Hpost]; discriminate].
    + rewrite andb_true_iff, N.eqb_eq, IH. split.
      * intros [-> [post ->]]. by exists post.
      * intros [post Hpost]. injection Hpost as -> ->. eauto.
Qed.

Lemma str_in_spec (k t : str) : str_in k t = true ↔ contains k t.
Proof.
  unfold contains. induction t as [|c t IH].
  - simpl. rewrite orb_false_r, starts_with_spec. split.
    + intros [post Hpost]. exists [], post. done.
    + intros [pre [post Hpost]]. symmetry in Hpost.
      apply app_eq_nil in Hpost as [-> Hpost].
      apply app_eq_nil in Hpost as [-> ->]. by exists [].
  - simpl. rewrite orb_true_iff, starts_with_spec, IH. split.
    + intros [[post Hpost] | [pre [post Hpost]]].
      * exists [], post. done.
      * exists (c :: pre), post. by rewrite Hpost.
    + intros [pre [post Hpost]]. destruct pre as [|c' pre].
      * left. by exists post.
      * right. injection Hpost as -> ->. eauto.
Qed.

Lemma str_in_false (k t : str) : str_in k t = false ↔ ¬ contains k t.
Proof. rewrite <- str_in_spec. by destruct (str_in k t). Qed.

(** ** The keyword scans *)

Lemma scan_keywords_hit (keywords : list str) (t : str) (hit found : bool) :
  (∃ k, k ∈ keywords ∧ contains k t) →
  scan_keywords keywords t hit found = hit.
Proof.
  induction keywords as [|k0 keywords IH]; intros [k [Hin Hk]].
  - by apply elem_of_nil in Hin.
  - simpl. destruct (str_in k0 t) eqn:E; [done|].
    apply IH. apply elem_of_cons in Hin as [-> | Hin]; [|eauto].
    apply str_in_spec in Hk. congruence.
Qed.

Lemma scan_keywords_miss (keywords : list str) (t : str) (hit found : bool) :
  (∀ k, k ∈ keywords → ¬ contains k t) →
  scan_keywords keywords t hit found = found.
Proof.
  induction keywords as [|k0 keywords IH]; intros Hnone; [done|].
  simpl. destruct (str_in k0 t) eqn:E.
  - apply str_in_spec in E. destruct (Hnone k0); [left | done].
  - apply IH. intros k Hin. apply Hnone. by right.
Qed.

Lemma scan_keywords_cases (keywords : list str) (t : str) :
  (∃ k, k ∈ keywords ∧ contains k t) ∨ (∀ k, k ∈ keywords → ¬ contains k t).
Proof.
  induction keywords as [|k0 keywords IH].
  - right. intros k Hin. by apply elem_of_nil in Hin.
  - destruct (str_in k0 t) eqn:E.
    + left. exists k0. split; [left | by apply str_in_spec].
    + destruct IH as [[k [Hin Hk]] | Hnone].
      * left. exists k. split; [by right | done].
      * right. intros k Hin. apply elem_of_cons in Hin as [-> | Hin].
        -- by apply str_in_false.
        -- by apply Hnone.
Qed.

(** ** Lowercasing keeps what is already lowercase ASCII *)

Section Lower.
Context `{RT : Runtime}.

Lemma lower_from_app (text a b : str) (i : nat) :
  lower_from text i (a ++ b)
  = lower_from text i a ++ lower_from text (i + length a) b.
Proof.
  revert i. induction a as [|c a IH]; intros i; simpl.
  - by rewrite Nat.add_0_r.
  - rewrite IH, <- app_assoc. do 3 f_equal. lia.
Qed.

Lemma lower_from_fixed (text k : str) (i : nat) :
  forallb unchanged_by_lower k = true → lower_from text i k = k.
Proof.
  revert i. induction k as [|c k IH]; intros i Hk; [done|].
  simpl in Hk. apply andb_true_iff in Hk as [Hc Hk].
  unfold unchanged_by_lower in Hc. apply andb_true_iff in Hc as [Hlt Hup].
  simpl. rewrite Hlt. unfold ascii_lower.
  apply negb_true_iff in Hup. rewrite Hup. simpl. by rewrite IH.
Qed.

Lemma contains_lower (k text : str) :
  forallb unchanged_by_lower k = true → contains k text → contains k (str_lower text).
Proof.
  intros Hk [pre [post ->]]. unfold str_lower.
  rewrite !lower_from_app, (lower_from_fixed _ k) by done.
  by eexists _, _.
Qed.

End Lower.

(** ** The fallback result *)

(** Looks a literal key up in a dict built by inserts at literal keys. *)
Ltac lookup_lit :=
  repeat first
    [ rewrite lookup_insert_eq
    | rewrite lookup_insert_ne by (vm_compute; discriminate)
    | rewrite lookup_empty ].

Section Fallback.
Context `{RT : Runtime}.

Lemma fallback_found_true (text : str) :
  fallback_found text = true ↔
  (∃ k, k ∈ found_keywords ∧ contains k (str_lower text))
  ∧ (∀ k, k ∈ not_found_keywords → ¬ contains k (str_lower text)).
Proof.
  unfold fallback_found.
  destruct (scan_keywords_cases not_found_keywords (str_lower text))
    as [Hneg | Hneg].
  - rewrite (scan_keywords_hit _ _ _ _ Hneg).
    split; [done|]. intros [_ Hnone]. destruct Hneg as [k [Hin Hk]].
    by destruct (Hnone k).
  - rewrite (scan_keywords_miss _ _ _ _ Hneg).
    destruct (scan_keywords_cases found_keywords (str_lower text))
      as [Hpos | Hpos].
    + rewrite (scan_keywords_hit _ _ _ _ Hpos). by split.
    + rewrite (scan_keywords_miss _ _ _ _ Hpos).
      split; [done|]. intros [[k [Hin Hk]] _]. by destruct (Hpos k).
Qed.

Lemma fallback_found_negative (text : str) :
  (∃ k, k ∈ not_found_keywords ∧ contains k (str_lower text)) →
  fallback_found text = false.
Proof. intros Hneg. unfold fallback_found. by apply scan_keywords_hit. Qed.

Lemma fallback_lookup_found (text : str) (object_name : pyval) :
  create_fallback_result text object_name !! lit "found"
  = Some (PBool (fallback_found text)).
Proof. unfold create_fallback_result. by lookup_lit. Qed.

(** C3: the fallback sets found to true exactly when the lowercased text has
    one of the positive tokens and none of the negative ones; any negative
    token forces found to false, whatever the positive matches; and a text
    that contains "not found" gets found = false. *)
Theorem fallback_found_iff_positive_and_no_negative
    (text : str) (object_name : pyval) :
  let result := create_fallback_result text object_name in
  let text_lower := str_lower text in
  (∃ found, result !! lit "found" = Some (PBool found))
  ∧ (result !! lit "found" = Some (PBool true) ↔
       (∃ k, k ∈ [lit "yes"; lit "found"; lit "present"; lit "visible";
                  lit "see"; lit "true"] ∧ contains k text_lower)
       ∧ (∀ k, k ∈ [lit "no"; lit "not found"; lit "absent"; lit "cannot";
                    lit "false"] → ¬ contains k text_lower))
  ∧ ((∃ k, k ∈ [lit "no"; lit "not found"; lit "absent"; lit "cannot";
                lit "false"] ∧ contains k text_lower) →
       result !! lit "found" = Some (PBool false))
  ∧ (contains (lit "not found") text →
       result !! lit "found" = Some (PBool false)).
Proof.
  intros result text_lower. subst result text_lower.
  rewrite fallback_lookup_found. split_and!.
  - eauto.
  - rewrite <- (fallback_found_true text). split; [congruence | by intros ->].
  - intros Hneg. by rewrite fallback_found_negative.
  - intros Hnf. rewrite fallback_found_negative; [done|].
    exists (lit "not found"). split.
    + unfold not_found_keywords. set_solver.
    + by apply contains_lower.
Qed.

(** C4: the fallback result has confidence "medium", the first 500 characters
    of the text as description, location "See description" when found and
    "Not applicable" when not, and no additional objects. *)
Theorem fallback_result_fields (text : str) (object_name : pyval) :
  let result := create_fallback_result text object_name in
  result !! lit "confidence" = Some (PStr (lit "medium"))
  ∧ result !! lit "description" = Some (PStr (take 500 text))
  ∧ length (take 500 text) ≤ 500
  ∧ take 500 text `prefix_of` text
  ∧ (∀ i, i < 500 → take 500 text !! i = text !! i)
  ∧ (∃ found, result !! lit "found" = Some (PBool found)
       ∧ result !! lit "location"
         = Some (PStr (if found then lit "See description"
                       else lit "Not applicable")))
  ∧ result !! lit "additional_objects" = Some (PList []).
Proof.
  intros result. subst result. unfold create_fallback_result. split_and!.
  - by lookup_lit.
  - by lookup_lit.
  - rewrite length_take. lia.
  - apply prefix_take.
  - intros i Hi. by apply lookup_take_lt.
  - exists (fallback_found text). split; by lookup_lit.
  - by lookup_lit.
Qed.

End Fallback.

(** ** Validation *)

(** Moves an insert at the literal key [k] inwards, to the insert it
    overwrites. *)
Ltac overwrite_lit k :=
  repeat (rewrite (insert_insert_ne _ k) by (vm_compute; discriminate));
  rewrite insert_insert_eq.

(** What validation returns, as one dict. *)
Lemma validate_result_eq (r : dict) :
  validate_result r =
    <[lit "found" := PBool (py_bool (dict_get r (lit "found") (PBool false)))]> (
    <[lit "confidence" :=
        valid_confidence (dict_get r (lit "confidence") (PStr (lit "medium")))]> (
    <[lit "description" :=
        dict_get r (lit "description") (PStr (lit "No description available"))]> (
    <[lit "location" := dict_get r (lit "location") (PStr (lit "Unknown"))]> (
    <[lit "additional_objects" :=
        valid_objects (dict_get r (lit "additional_objects") (PList []))]> ∅)))).
Proof.
  unfold validate_result, collect_fields.
  set (c := dict_get r (lit "confidence") _).
  set (a := dict_get r (lit "additional_objects") _).
  unfold ensure_confidence at 1. rewrite lookup_total_alt. lookup_lit.
  cbn [default from_option id]. fold (valid_confidence c).
  replace (if negb (py_in_strs c [lit "high"; lit "medium"; lit "low"])
           then _ else _)
    with (<[lit "found" := PBool (py_bool (dict_get r (lit "found") (PBool false)))]> (
          <[lit "confidence" := valid_confidence c]> (
          <[lit "description" :=
              dict_get r (lit "description") (PStr (lit "No description available"))]> (
          <[lit "location" := dict_get r (lit "location") (PStr (lit "Unknown"))]> (
          <[lit "additional_objects" := a]> (∅ : dict)))))).
  2:{ unfold valid_confidence. destruct (py_in_strs c _); cbn [negb]; [done|].
      by overwrite_lit (lit "confidence"). }
  unfold ensure_objects_list. rewrite lookup_total_alt. lookup_lit.
  cbn [default from_option id]. unfold valid_objects.
  destruct (isinstance_list a); cbn [negb]; [done|].
  by overwrite_lit (lit "additional_objects").
Qed.

Lemma validate_result_other (r : dict) (k : str) :
  k ∉ result_keys → validate_result r !! k = None.
Proof.
  intros Hk. unfold result_keys in Hk.
  rewrite !not_elem_of_cons in Hk. destruct Hk as (?&?&?&?&?&_).
  rewrite validate_result_eq.
  by rewrite !lookup_insert_ne, lookup_empty by done.
Qed.

Lemma valid_confidence_enum (v : pyval) :
  valid_confidence v ∈ [PStr (lit "high"); PStr (lit "medium"); PStr (lit "low")].
Proof.
  unfold valid_confidence. destruct (py_in_strs v _) eqn:E; [|set_solver].
  unfold py_in_strs in E. apply existsb_exists in E as [s [Hs E]].
  unfold py_eq_str in E. destruct v; try done.
  apply bool_decide_eq_true in E as ->.
  apply list_elem_of_In in Hs.
  rewrite !elem_of_cons, elem_of_nil in Hs. rewrite !elem_of_cons.
  destruct Hs as [-> | [-> | [-> | []]]]; auto.
Qed.

Lemma valid_confidence_idem (v : pyval) :
  valid_confidence (valid_confidence v) = valid_confidence v.
Proof.
  unfold valid_confidence at 2 3. destruct (py_in_strs v _) eqn:E.
  - unfold valid_confidence. by rewrite E.
  - by vm_compute.
Qed.

Lemma valid_objects_idem (v : pyval) :
  valid_objects (valid_objects v) = valid_objects v.
Proof. by destruct v. Qed.

Lemma validate_result_found (r : dict) :
  validate_result r !! lit "found"
  = Some (PBool (py_bool (dict_get r (lit "found") (PBool false)))).
Proof. rewrite validate_result_eq. by lookup_lit. Qed.

Lemma validate_result_confidence (r : dict) :
  validate_result r !! lit "confidence"
  = Some (valid_confidence (dict_get r (lit "confidence") (PStr (lit "medium")))).
Proof. rewrite validate_result_eq. by lookup_lit. Qed.

Lemma validate_result_description (r : dict) :
  validate_result r !! lit "description"
  = Some (dict_get r (lit "description") (PStr (lit "No description available"))).
Proof. rewrite validate_result_eq. by lookup_lit. Qed.

Lemma validate_result_location (r : dict) :
  validate_result r !! lit "location"
  = Some (dict_get r (lit "location") (PStr (lit "Unknown"))).
Proof. rewrite validate_result_eq. by lookup_lit. Qed.

Lemma validate_result_objects (r : dict) :
  validate_result r !! lit "additional_objects"
  = Some (valid_objects (dict_get r (lit "additional_objects") (PList []))).
Proof. rewrite validate_result_eq. by lookup_lit. Qed.

Lemma validate_result_populated (r : dict) : populated (validate_result r).
Proof.
  unfold populated.
  rewrite validate_result_found, validate_result_confidence,
    validate_result_description, validate_result_location,
    validate_result_objects.
  split_and!; try by eexists.
  pose proof (valid_confidence_enum
    (dict_get r (lit "confidence") (PStr (lit "medium")))) as H.
  rewrite !elem_of_cons, elem_of_nil in H.
  destruct H as [-> | [-> | [-> | []]]]; auto.
Qed.

(** C6, as the code has it: validation makes additional_objects the empty
    list when the field is missing or its value is not a list, and keeps a
    list as it is, whatever its elements; the field is always a list. *)
Theorem validate_result_objects_list (r : dict) :
  let v := validate_result r in
  (r !! lit "additional_objects" = None →
     v !! lit "additional_objects" = Some (PList []))
  ∧ (∀ x, r !! lit "additional_objects" = Some x → isinstance_list x = false →
       v !! lit "additional_objects" = Some (PList []))
  ∧ (∀ l, r !! lit "additional_objects" = Some (PList l) →
       v !! lit "additional_objects" = Some (PList l))
  ∧ (∃ l, v !! lit "additional_objects" = Some (PList l)).
Proof.
  intros v. subst v. rewrite validate_result_objects. unfold dict_get.
  split_and!.
  - by intros ->.
  - intros x -> Hx. unfold valid_objects. by rewrite Hx.
  - by intros l ->.
  - unfold valid_objects.
    destruct (r !! lit "additional_objects") as [[]|]; by eexists.
Qed.

(** C6, as the claim has it, fails on the list [[1]]: it is not a sequence of
    strings, and validation keeps it with its integer element. *)
Lemma validate_result_keeps_non_strings :
  let r : dict := <[lit "additional_objects" := PList [PInt 1]]> ∅ in
  is_str_list (PList [PInt 1]) = false
  ∧ validate_result r !! lit "additional_objects" = Some (PList [PInt 1])
  ∧ validate_result r !! lit "additional_objects" ≠ Some (PList []).
Proof.
  intros r. subst r. rewrite validate_result_objects. unfold dict_get.
  lookup_lit. by split_and!.
Qed.

(** C7: validating a validated result changes nothing. *)
Theorem validate_result_idempotent (r : dict) :
  validate_result (validate_result r) = validate_result r.
Proof.
  rewrite (validate_result_eq (validate_result r)). unfold dict_get at 1 2 3 4 5.
  rewrite validate_result_found, validate_result_confidence,
    validate_result_description, validate_result_location,
    validate_result_objects.
  cbn [py_bool]. rewrite valid_confidence_idem, valid_objects_idem.
  by rewrite validate_result_eq.
Qed.

(** ** The span that [re.search] finds *)

Lemma greedy_none (s : str) : rbrace ∉ s → greedy_until_rbrace s = None.
Proof.
  induction s as [|c s IH]; [done|]. intros Hs.
  apply not_elem_of_cons in Hs as [Hc Hs]. simpl. rewrite IH by done.
  destruct (N.eqb_spec c rbrace); congruence.
Qed.

Lemma greedy_none_inv (s : str) : greedy_until_rbrace s = None → rbrace ∉ s.
Proof.
  induction s as [|c s IH]; simpl; [intros _; apply not_elem_of_nil|].
  destruct (greedy_until_rbrace s); [done|].
  destruct (N.eqb_spec c rbrace); [done|]. intros _.
  apply not_elem_of_cons. auto.
Qed.

Lemma greedy_last (mid post : str) :
  rbrace ∉ post →
  greedy_until_rbrace (mid ++ rbrace :: post) = Some (mid ++ [rbrace]).
Proof.
  intros Hpost. induction mid as [|c mid IH]; simpl.
  - by rewrite greedy_none.
  - by rewrite IH.
Qed.

Lemma greedy_inv (s m : str) :
  greedy_until_rbrace s = Some m →
  ∃ mid post, s = mid ++ rbrace :: post ∧ m = mid ++ [rbrace] ∧ rbrace ∉ post.
Proof.
  revert m. induction s as [|c s IH]; intros m; simpl; [done|].
  destruct (greedy_until_rbrace s) as [m'|] eqn:E.
  - intros [= <-]. destruct (IH m' eq_refl) as (mid & post & -> & -> & Hpost).
    by exists (c :: mid), post.
  - destruct (N.eqb_spec c rbrace) as [-> | _]; [|done]. intros [= <-].
    exists [], s. split_and!; [done | done | by apply greedy_none_inv].
Qed.

Lemma re_search_none (text : str) : rbrace ∉ text → re_search text = None.
Proof.
  induction text as [|c text IH]; [done|]. intros Ht.
  apply not_elem_of_cons in Ht as [Hc Ht].
  simpl. rewrite (greedy_none text), IH by done.
  by destruct (c =? lbrace)%N.
Qed.

Lemma re_search_first_to_last (pre mid post : str) :
  lbrace ∉ pre → rbrace ∉ post →
  re_search (pre ++ lbrace :: mid ++ rbrace :: post)
  = Some (lbrace :: (mid ++ [rbrace])).
Proof.
  intros Hpre Hpost. induction pre as [|c pre IH].
  - simpl. by rewrite greedy_last.
  - apply not_elem_of_cons in Hpre as [Hc Hpre]. simpl.
    destruct (N.eqb_spec c lbrace); [congruence|]. by apply IH.
Qed.

Lemma re_search_inv (text span : str) :
  re_search text = Some span →
  ∃ pre mid post,
    text = pre ++ lbrace :: mid ++ rbrace :: post
    ∧ span = lbrace :: (mid ++ [rbrace]) ∧ (lbrace ∉ pre) ∧ (rbrace ∉ post).
Proof.
  induction text as [|c text IH]; [done|]. simpl.
  destruct (N.eqb_spec c lbrace) as [-> | Hc].
  - destruct (greedy_until_rbrace text) as [m|] eqn:E; simpl.
    + intros [= <-]. destruct (greedy_inv _ _ E) as (mid & post & -> & -> & Hpost).
      exists [], mid, post. split_and!; try done. apply not_elem_of_nil.
    + rewrite re_search_none; [done|]. by apply greedy_none_inv.
  - intros Hs. destruct (IH Hs) as (pre & mid & post & -> & -> & Hpre & Hpost).
    exists (c :: pre), mid, post. split_and!; try done.
    apply not_elem_of_cons. auto.
Qed.

Section Normalizer.
Context `{RT : Runtime}.

(** C1, as the code has it: the span that is parsed runs from the first
    opening brace of the reply to its last closing brace, and the result is
    the validated parse of exactly that span.  So an object between a prose
    with no opening brace and a prose with no closing brace is extracted and
    the prose is ignored. *)
Theorem json_match_first_to_last (text span : str) (object_name : pyval) :
  (json_match text = Some span ↔
     ∃ pre mid post,
       text = pre ++ span ++ post ∧ span = lbrace :: (mid ++ [rbrace])
       ∧ (lbrace ∉ pre) ∧ (rbrace ∉ post))
  ∧ (∀ d, json_match text = Some span → json_loads span = Loaded (PDict d) →
       parse_reply text object_name = Return (PDict d)
       ∧ respond text object_name
         = Return (success_response (validate_result d))).
Proof.
  unfold json_match. split.
  - split.
    + intros Hs. destruct (re_search_inv _ _ Hs)
        as (pre & mid & post & -> & -> & Hpre & Hpost).
      exists pre, mid, post. split_and!; try done.
      simpl. by rewrite <- app_assoc.
    + intros (pre & mid & post & -> & -> & Hpre & Hpost).
      simpl. rewrite <- app_assoc. simpl. by apply re_search_first_to_last.
  - intros d Hs Hd. unfold respond, parse_reply, json_match.
    by rewrite Hs, Hd.
Qed.

End Normalizer.

(** C1 as first stated (the first balanced span is located and parsed) fails
    on a reply with a second pair of braces after the object: the first
    balanced span is the object, which parses, and the span that [re.search]
    finds runs on to the last closing brace, which does not; the reply is
    then answered by the fallback. *)
Lemma json_match_not_first_balanced :
  let text := litq "Result: {`found`: true}. Other objects: {}" in
  let RT := example_runtime (Return text) in
  first_balanced_span text = Some (litq "{`found`: true}")
  ∧ json_match text = Some (litq "{`found`: true}. Other objects: {}")
  ∧ json_match text ≠ first_balanced_span text
  ∧ json_loads (litq "{`found`: true}")
    = Loaded (PDict (<[lit "found" := PBool true]> ∅))
  ∧ json_loads (litq "{`found`: true}. Other objects: {}") = JSONDecodeError
  ∧ parse_reply text (PStr (lit "cat"))
    = Return (PDict (create_fallback_result text (PStr (lit "cat"))))
  ∧ parse_reply text (PStr (lit "cat"))
    ≠ Return (PDict (<[lit "found" := PBool true]> ∅)).
Proof. by vm_compute. Qed.

Example fragment_object :
  json_fragment_loads (litq " {`found`: true, `n`: [1, -2], `s`: `a b`} ")
  = Loaded (PDict (<[lit "found" := PBool true]> (
                   <[lit "n" := PList [PInt 1; PInt (-2)]]> (
                   <[lit "s" := PStr (lit "a b")]> ∅)))).
Proof. vm_compute. reflexivity. Qed.

Example b64_png : b64decode_default (lit "iVBORw0KGgo=") = Some (byte_of_N <$> png_signature).
Proof. vm_compute. reflexivity. Qed.

(** ** Stripping the data-URL prefix *)

Lemma str_split_not_nil (sep : N) (s : str) : str_split sep s ≠ [].
Proof.
  destruct s as [|c s]; simpl; [done|].
  destruct (c =? sep)%N; [done|]. by destruct (str_split sep s).
Qed.

Lemma str_split_no_sep (sep : N) (s : str) : sep ∉ s → str_split sep s = [s].
Proof.
  induction s as [|c s IH]; [done|]. intros Hs.
  apply not_elem_of_cons in Hs as [Hc Hs]. simpl.
  destruct (N.eqb_spec c sep); [congruence|]. by rewrite IH.
Qed.

Lemma str_split_at_sep (sep : N) (pre rest : str) :
  sep ∉ pre → str_split sep (pre ++ sep :: rest) = pre :: str_split sep rest.
Proof.
  induction pre as [|c pre IH]; intros Hpre; simpl.
  - by rewrite N.eqb_refl.
  - apply not_elem_of_cons in Hpre as [Hc Hpre].
    destruct (N.eqb_spec c sep); [congruence|]. by rewrite IH.
Qed.

Lemma str_in_char (sep : N) (s : str) : str_in [sep] s = true ↔ sep ∈ s.
Proof.
  rewrite str_in_spec. unfold contains. split.
  - intros (pre & post & ->). set_solver.
  - intros Hs. apply list_elem_of_split in Hs as (pre & post & ->).
    by exists pre, post.
Qed.

Lemma strip_no_comma (s : str) :
  comma ∉ s → strip_data_url_prefix (PStr s) = Return (PStr s).
Proof.
  intros Hs. unfold strip_data_url_prefix. simpl.
  destruct (str_in [comma] s) eqn:E; [|done].
  by apply str_in_char in E.
Qed.

(** What the code keeps: the part between the first comma and the next. *)
Lemma strip_to_next_comma (pre seg : str) (rest : list str) (tail : str) :
  comma ∉ pre → str_split comma tail = seg :: rest →
  strip_data_url_prefix (PStr (pre ++ comma :: tail)) = Return (PStr seg).
Proof.
  intros Hpre Htail. unfold strip_data_url_prefix. simpl.
  assert (str_in [comma] (pre ++ comma :: tail) = true) as ->.
  { apply str_in_char. set_solver. }
  simpl. by rewrite str_split_at_sep, Htail.
Qed.

Lemma strip_one_comma (pre payload : str) :
  comma ∉ pre → comma ∉ payload →
  strip_data_url_prefix (PStr (pre ++ comma :: payload)) = Return (PStr payload)
  ∧ after_first comma (pre ++ comma :: payload) = payload.
Proof.
  intros Hpre Hpayload. split.
  - apply (strip_to_next_comma pre payload []); [done|].
    by apply str_split_no_sep.
  - clear Hpayload. induction pre as [|c pre IH]; simpl.
    + done.
    + apply not_elem_of_cons in Hpre as [Hc Hpre].
      destruct (N.eqb_spec c comma); [congruence|]. by apply IH.
Qed.

Lemma strip_str_total (s : str) :
  ∃ payload, strip_data_url_prefix (PStr s) = Return (PStr payload).
Proof.
  destruct (decide (comma ∈ s)) as [Hs | Hs].
  - apply list_elem_of_split_l in Hs as (pre & tail & -> & Hpre).
    destruct (str_split comma tail) as [|seg rest] eqn:E.
    + by apply str_split_not_nil in E.
    + exists seg. by apply (strip_to_next_comma pre seg rest).
  - exists s. by apply strip_no_comma.
Qed.

(** The data-URL case: a prefixed string and its bare payload go to the
    decoder as the same text. *)
Lemma data_url_prefix_same_payload :
  strip_data_url_prefix (PStr (lit "data:image/png;base64,AAAA"))
  = strip_data_url_prefix (PStr (lit "AAAA")).
Proof. by vm_compute. Qed.

(** C5 at an image string with a second comma: the remainder after the
    first comma is "AAAA,BBBB", the code decodes "AAAA" only, and the two
    decode to different bytes. *)
Lemma strip_cuts_at_second_comma :
  let image_data := lit "data:image/png;base64,AAAA,BBBB" in
  after_first comma image_data = lit "AAAA,BBBB"
  ∧ strip_data_url_prefix (PStr image_data) = Return (PStr (lit "AAAA"))
  ∧ b64decode_default (lit "AAAA") = Some (byte_of_N <$> [0; 0; 0]%N)
  ∧ b64decode_default (lit "AAAA,BBBB")
    = Some (byte_of_N <$> [0; 0; 0; 4; 16; 65]%N).
Proof. by vm_compute. Qed.

(** ** The endpoint *)

Section Endpoint.
Context `{RT : Runtime}.

Lemma respond_fallback (text : str) (object_name : pyval) :
  (json_match text = None
   ∨ ∃ span, json_match text = Some span ∧ json_loads span = JSONDecodeError) →
  parse_reply text object_name
  = Return (PDict (create_fallback_result text object_name))
  ∧ respond text object_name
    = Return (success_response
                (validate_result (create_fallback_result text object_name))).
Proof.
  intros Hbad. unfold respond.
  assert (parse_reply text object_name
          = Return (PDict (create_fallback_result text object_name)))
    as ->; [|done].
  unfold parse_reply. destruct Hbad as [-> | (span & -> & ->)]; done.
Qed.

(** C10: the fallback result is the same for any two object names: the
    name is never compared with the reply.  So a reply that is answered by
    the fallback gets the same response under any two names. *)
Theorem fallback_ignores_object_name (text : str) (n1 n2 : pyval) :
  create_fallback_result text n1 = create_fallback_result text n2
  ∧ ((json_match text = None
      ∨ ∃ span, json_match text = Some span
                ∧ json_loads span = JSONDecodeError) →
     parse_reply text n1 = parse_reply text n2
     ∧ respond text n1 = respond text n2).
Proof.
  split.
  - unfold create_fallback_result. reflexivity.
  - intros Hbad.
    destruct (respond_fallback text n1 Hbad) as [-> ->].
    destruct (respond_fallback text n2 Hbad) as [-> ->].
    done.
Qed.

(** X19: when the reply has no JSON span, or [json.loads] raises
    [JSONDecodeError] on the span, the result is the validated fallback
    result, fully populated, and a request that got as far as the model is
    answered 200 with success = true. *)
Theorem malformed_reply_is_absorbed
    (d : dict) (image_data object_name payload : pyval)
    (image_bytes : bytes) (img : image) (text : str) :
  d !! lit "image" = Some image_data →
  d !! lit "object_name" = Some object_name →
  py_bool image_data = true →
  py_bool object_name = true →
  strip_data_url_prefix image_data = Return payload →
  b64decode payload = Some image_bytes →
  image_open image_bytes = Some img →
  generate_content (build_prompt object_name) img = Return text →
  (json_match text = None
   ∨ ∃ span, json_match text = Some span ∧ json_loads span = JSONDecodeError) →
  let result := validate_result (create_fallback_result text object_name) in
  parse_reply text object_name
  = Return (PDict (create_fallback_result text object_name))
  ∧ populated result
  ∧ analyze_image (PDict d) = success_response result
  ∧ status (analyze_image (PDict d)) = 200%Z
  ∧ body (analyze_image (PDict d)) !! lit "success" = Some (PBool true)
  ∧ body (analyze_image (PDict d)) !! lit "result" = Some (PDict result).
Proof.
  intros Himage Hname Hi Hn Hstrip Hdecode Hopen Hreply Hbad result.
  destruct (respond_fallback text object_name Hbad) as [Hparse Hrespond].
  assert (analyze_image (PDict d) = success_response result) as ->.
  { unfold analyze_image, analyze_image_try. cbn [py_get_method mbind outcome_bind].
    unfold dict_get. rewrite Himage, Hname, Hi, Hn. cbn [negb orb].
    rewrite Hstrip. cbn [mbind outcome_bind].
    rewrite Hdecode, Hopen, Hreply. cbn [mbind outcome_bind].
    by rewrite Hrespond. }
  split_and!.
  - done.
  - apply validate_result_populated.
  - done.
  - done.
  - unfold success_response. cbn [body]. by lookup_lit.
  - unfold success_response. cbn [body]. by lookup_lit.
Qed.

(** X20: a request whose image is a string that the decoder rejects, or
    that decodes to bytes that do not open as an image, is answered 400 with
    success = false, whatever its object name. *)
Theorem bad_image_is_bad_request (d : dict) (s payload : str) :
  d !! lit "image" = Some (PStr s) →
  strip_data_url_prefix (PStr s) = Return (PStr payload) →
  (b64decode_str payload = None
   ∨ ∃ image_bytes,
       b64decode_str payload = Some image_bytes
       ∧ image_open image_bytes = None) →
  status (analyze_image (PDict d)) = 400%Z
  ∧ body (analyze_image (PDict d)) !! lit "success" = Some (PBool false)
  ∧ (∃ msg, body (analyze_image (PDict d)) !! lit "error" = Some (PStr msg)).
Proof.
  intros Himage Hstrip Hbad.
  assert (∃ msg, analyze_image (PDict d) = error_response msg 400) as [msg ->].
  { unfold analyze_image, analyze_image_try.
    cbn [py_get_method mbind outcome_bind].
    assert (dict_get d (lit "image") PNone = PStr s) as ->.
    { unfold dict_get. by rewrite Himage. }
    destruct (negb (py_bool (PStr s)) || negb (py_bool _)); [by eexists|].
    rewrite Hstrip. cbn [mbind outcome_bind b64decode].
    destruct Hbad as [-> | (image_bytes & -> & ->)]; by eexists. }
  unfold error_response. cbn [status body].
  split_and!; [done | by lookup_lit |]. exists msg. by lookup_lit.
Qed.

(** Whatever the reply, a response of the normaliser carries a fully
    populated result. *)
Lemma respond_populated (text : str) (object_name : pyval) (resp : response) :
  respond text object_name = Return resp →
  ∃ v, resp = success_response v ∧ populated v.
Proof.
  unfold respond.
  destruct (parse_reply text object_name) as [result|e];
    cbn [mbind outcome_bind]; [|done].
  destruct result; try done.
  cbn [py_get_method mbind outcome_bind]. intros [= <-].
  eexists. split; [done|]. apply validate_result_populated.
Qed.

(** C2: whatever mapping comes in, the validated result has the five fields
    found, confidence, description, location and additional_objects (and no
    other), found is a boolean, and confidence is "high", "medium" or "low";
    and the result in every response of the normaliser is such a result. *)
Theorem validate_result_schema (r : dict) :
  let v := validate_result r in
  (is_Some (v !! lit "found")
   ∧ is_Some (v !! lit "confidence")
   ∧ is_Some (v !! lit "description")
   ∧ is_Some (v !! lit "location")
   ∧ is_Some (v !! lit "additional_objects")
   ∧ (v !! lit "confidence" = Some (PStr (lit "high"))
      ∨ v !! lit "confidence" = Some (PStr (lit "medium"))
      ∨ v !! lit "confidence" = Some (PStr (lit "low")))
   ∧ (∃ b, v !! lit "found" = Some (PBool b))
   ∧ (∀ k, is_Some (v !! k) →
        k ∈ [lit "found"; lit "confidence"; lit "description"; lit "location";
             lit "additional_objects"]))
  ∧ (∀ text object_name resp,
       respond text object_name = Return resp →
       status resp = 200%Z
       ∧ ∃ result,
           body resp !! lit "result" = Some (PDict result)
           ∧ is_Some (result !! lit "found")
           ∧ is_Some (result !! lit "confidence")
           ∧ is_Some (result !! lit "description")
           ∧ is_Some (result !! lit "location")
           ∧ is_Some (result !! lit "additional_objects")
           ∧ (result !! lit "confidence" = Some (PStr (lit "high"))
              ∨ result !! lit "confidence" = Some (PStr (lit "medium"))
              ∨ result !! lit "confidence" = Some (PStr (lit "low")))).
Proof.
  intros v. subst v. split.
  - destruct (validate_result_populated r) as (?&?&?&?&?&?).
    split_and!; try done.
    + rewrite validate_result_found. by eexists.
    + intros k [x Hx].
      destruct (decide (k ∈ result_keys)) as [Hk | Hk]; [done|].
      apply (validate_result_other r) in Hk. congruence.
  - intros text object_name resp Hresp.
    destruct (respond_populated _ _ _ Hresp) as (result & -> & Hpop).
    split; [done|]. exists result. split; [|exact Hpop].
    unfold success_response. cbn [body]. by lookup_lit.
Qed.

(** Every image string has a payload: stripping never raises on a str. *)
Lemma image_string_has_payload (s : str) :
  ∃ payload, strip_data_url_prefix (PStr s) = Return (PStr payload).
Proof. apply strip_str_total. Qed.

End Endpoint.

(** ** The handler on concrete requests *)

Lemma malformed_reply_is_absorbed_witness :
  let reply := lit "I see {no cat} here" in
  let RT := example_runtime (Return reply) in
  json_match reply = Some (lit "{no cat}")
  ∧ json_loads (lit "{no cat}") = JSONDecodeError
  ∧ status (analyze_image (PDict cat_request)) = 200%Z
  ∧ body (analyze_image (PDict cat_request)) !! lit "success"
    = Some (PBool true)
  ∧ body (analyze_image (PDict cat_request)) !! lit "result"
    = Some (PDict (validate_result (create_fallback_result reply (PStr (lit "cat"))))).
Proof.
  intros reply RT.
  split; [by vm_compute|]. split; [by vm_compute|].
  pose proof (@malformed_reply_is_absorbed RT cat_request
    (PStr (lit "data:image/png;base64,iVBORw0KGgo=")) (PStr (lit "cat"))
    (PStr (lit "iVBORw0KGgo=")) (byte_of_N <$> png_signature)
    (byte_of_N <$> png_signature) reply) as H.
  destruct H as (_ & _ & _ & Hstatus & Hsuccess & Hresult);
    try (vm_compute; reflexivity).
  - right. exists (lit "{no cat}"). split; vm_compute; reflexivity.
  - split_and!; assumption.
Defined.

Lemma bad_image_is_bad_request_witness :
  let RT := example_runtime (Return (lit "unused")) in
  let d : dict :=
    <[lit "image" := PStr (lit "data:image/png;base64,not base64!")]> (
    <[lit "object_name" := PStr (lit "cat")]> ∅) in
  b64decode_str (lit "not base64!") = None
  ∧ status (analyze_image (PDict d)) = 400%Z
  ∧ body (analyze_image (PDict d)) !! lit "success" = Some (PBool false).
Proof.
  intros RT d.
  split; [by vm_compute|].
  pose proof (@bad_image_is_bad_request RT d
    (lit "data:image/png;base64,not base64!") (lit "not base64!")) as H.
  destruct H as (Hstatus & Hsuccess & _).
  - vm_compute. reflexivity.
  - vm_compute. reflexivity.
  - left. vm_compute. reflexivity.
  - split; assumption.
Defined.

(** The two fallback cases of the specification's test list. *)
Example fallback_not_found :
  let RT := example_runtime (Return []) in
  let result := create_fallback_result (lit "The object was not found.") PNone in
  result !! lit "found" = Some (PBool false)
  ∧ result !! lit "location" = Some (PStr (lit "Not applicable")).
Proof. by vm_compute. Qed.

Example fallback_visible :
  let RT := example_runtime (Return []) in
  let result := create_fallback_result (lit "Yes, it is visible") PNone in
  result !! lit "found" = Some (PBool true)
  ∧ result !! lit "location" = Some (PStr (lit "See description")).
Proof. by vm_compute. Qed.

(** A reply with prose around the object, from request to response. *)
Example analyze_image_parsed :
  let reply :=
    litq "Sure! {`found`: true, `confidence`: `certain`, `additional_objects`: [`sofa`]} Anything else?" in
  let RT := example_runtime (Return reply) in
  analyze_image (PDict cat_request)
  = success_response (
      <[lit "found" := PBool true]> (
      <[lit "confidence" := PStr (lit "medium")]> (
      <[lit "description" := PStr (lit "No description available")]> (
      <[lit "location" := PStr (lit "Unknown")]> (
      <[lit "additional_objects" := PList [PStr (lit "sofa")]]> ∅))))).
Proof. by vm_compute. Qed.

(** The same reply followed by a second pair of braces is not parsed: the
    span runs to the last brace, and the fallback answers. *)
Example analyze_image_two_spans :
  let reply := litq "{`found`: true} and nothing else {}" in
  let RT := example_runtime (Return reply) in
  json_loads (litq "{`found`: true}")
  = Loaded (PDict (<[lit "found" := PBool true]> ∅))
  ∧ parse_reply reply (PStr (lit "cat"))
    = Return (PDict (create_fallback_result reply (PStr (lit "cat"))))
  ∧ create_fallback_result reply (PStr (lit "cat")) !! lit "found"
    = Some (PBool false).
Proof. by vm_compute. Qed.

(** C9 at a request whose image is the number 123: the image is not valid
    base64, the comma test of line 63 raises outside the inner [try], and the
    request is answered 500, for every runtime; the list [[1]] in its place
    is answered 400 by the handler of line 69. *)
Lemma numeric_image_server_error `{RT : Runtime} :
  let numeric : dict :=
    <[lit "image" := PInt 123]> (<[lit "object_name" := PStr (lit "cat")]> ∅) in
  let listed : dict :=
    <[lit "image" := PList [PInt 1]]> (
    <[lit "object_name" := PStr (lit "cat")]> ∅) in
  analyze_image_try (PDict numeric) = Raise (TypeError (PInt 123))
  ∧ analyze_image (PDict numeric)
    = error_response (lit "Server error: " ++ str_exn (TypeError (PInt 123))) 500
  ∧ status (analyze_image (PDict numeric)) = 500%Z
  ∧ body (analyze_image (PDict numeric)) !! lit "success" = Some (PBool false)
  ∧ analyze_image (PDict listed)
    = error_response (lit "Invalid base64 image data") 400.
Proof.
  intros numeric listed.
  assert (analyze_image_try (PDict numeric) = Raise (TypeError (PInt 123)))
    as Htry.
  { unfold analyze_image_try. cbn [py_get_method mbind outcome_bind].
    unfold dict_get. subst numeric. by lookup_lit. }
  assert (analyze_image (PDict listed)
          = error_response (lit "Invalid base64 image data") 400) as Hlisted.
  { unfold analyze_image, analyze_image_try.
    cbn [py_get_method mbind outcome_bind].
    unfold dict_get. subst listed. by lookup_lit. }
  unfold analyze_image. rewrite Htry. unfold error_response. cbn [status body].
  split_and!; try done; by lookup_lit.
Qed.

(** C8 at a reply whose span holds an integer of 4301 digits: the span is
    found, [json.loads] raises [ValueError], which line 111 does not catch,
    and the request is answered 500 with success = false instead of by the
    fallback. *)
Lemma overlong_integer_reply_server_error :
  let RT := example_runtime (Return overlong_reply) in
  json_match overlong_reply = Some overlong_reply
  ∧ (∃ msg, json_loads overlong_reply = LoadsRaises (ValueError msg))
  ∧ (∃ msg, analyze_image_try (PDict cat_request) = Raise (ValueError msg))
  ∧ status (analyze_image (PDict cat_request)) = 500%Z
  ∧ body (analyze_image (PDict cat_request)) !! lit "success"
    = Some (PBool false).
Proof.
  intros RT. split_and!.
  - vm_compute. reflexivity.
  - exists (lit "Exceeds the limit (4300 digits) for integer string conversion").
    vm_compute. reflexivity.
  - exists (lit "Exceeds the limit (4300 digits) for integer string conversion").
    vm_compute. reflexivity.
  - vm_compute. reflexivity.
  - vm_compute. reflexivity.
Qed.

(** * Further properties of the handler *)

Section Handler.
Context `{RT : Runtime}.

(** The three ways the body of the outer [try] ends. *)
Lemma analyze_image_try_cases (data : pyval) :
  (∃ e, analyze_image_try data = Raise e)
  ∨ (∃ msg, analyze_image_try data = Return (error_response msg 400))
  ∨ (∃ r, analyze_image_try data
          = Return (success_response (validate_result r))).
Proof.
  unfold analyze_image_try.
  destruct (py_get_method data) as [d|e]; cbn [mbind outcome_bind]; [|eauto].
  destruct (negb _ || negb _); [eauto|].
  destruct (strip_data_url_prefix _) as [payload|e];
    cbn [mbind outcome_bind]; [|eauto].
  destruct (b64decode payload) as [image_bytes|]; [|eauto].
  destruct (image_open image_bytes) as [img|]; [|eauto].
  destruct (generate_content _ img) as [text|e];
    cbn [mbind outcome_bind]; [|eauto].
  unfold respond.
  destruct (parse_reply text _) as [result|e];
    cbn [mbind outcome_bind]; [|eauto].
  destruct (py_get_method _) as [r|e]; cbn [mbind outcome_bind]; eauto.
Qed.

(** X1: every response is one of three kinds: 200 with success = true and a
    fully populated result and no error; or 400 or 500 with success = false,
    an error string and no result. *)
Theorem analyze_image_response_kinds (data : pyval) :
  let resp := analyze_image data in
  (status resp = 200%Z
   ∧ body resp !! lit "success" = Some (PBool true)
   ∧ body resp !! lit "error" = None
   ∧ ∃ result, body resp !! lit "result" = Some (PDict result)
               ∧ populated result)
  ∨ ((status resp = 400%Z ∨ status resp = 500%Z)
     ∧ body resp !! lit "success" = Some (PBool false)
     ∧ body resp !! lit "result" = None
     ∧ ∃ msg, body resp !! lit "error" = Some (PStr msg)).
Proof.
  intros resp. subst resp. unfold analyze_image.
  destruct (analyze_image_try_cases data)
    as [[e ->] | [[msg ->] | [r ->]]].
  - right. unfold error_response. cbn [status body].
    split_and!; [by right | by lookup_lit | by lookup_lit |].
    eexists. by lookup_lit.
  - right. unfold error_response. cbn [status body].
    split_and!; [by left | by lookup_lit | by lookup_lit |].
    eexists. by lookup_lit.
  - left. unfold success_response. cbn [status body].
    split_and!; [done | by lookup_lit | by lookup_lit |].
    eexists. split; [by lookup_lit | apply validate_result_populated].
Qed.

(** X2: a request in which image or object_name is missing or falsy (null,
    empty string, 0, false, empty list or object) is answered 400 with the
    missing-fields message, before anything is decoded. *)
Theorem missing_fields_bad_request (d : dict) :
  py_bool (dict_get d (lit "image") PNone) = false
  ∨ py_bool (dict_get d (lit "object_name") PNone) = false →
  analyze_image (PDict d)
  = error_response (lit "Missing required fields: image and object_name") 400.
Proof.
  intros Hmiss. unfold analyze_image, analyze_image_try.
  cbn [py_get_method mbind outcome_bind].
  by destruct Hmiss as [-> | ->]; rewrite ?orb_true_r.
Qed.

(** X3: a body that is not a JSON object (null, a list, a string, a number)
    is answered 500: the [get] of line 52 raises inside the outer [try]. *)
Theorem non_object_body_server_error (data : pyval) :
  (∀ d, data ≠ PDict d) →
  analyze_image data
  = error_response
      (lit "Server error: " ++ str_exn (AttributeError data (lit "get"))) 500.
Proof.
  intros Hdata. unfold analyze_image, analyze_image_try.
  destruct data; try done. by destruct (Hdata d).
Qed.

(** X4: a request whose image is truthy and not a string is never answered
    200: a number or a boolean raises at the comma test (500); a list or an
    object that holds "," raises at [split] (500); any other list or object
    is rejected by the decoder (400, invalid base64). *)
Theorem non_string_image_rejected (d : dict) (image_data object_name : pyval) :
  d !! lit "image" = Some image_data →
  d !! lit "object_name" = Some object_name →
  py_bool image_data = true →
  py_bool object_name = true →
  (∀ s, image_data ≠ PStr s) →
  match py_contains [comma] image_data with
  | Raise e =>
      analyze_image (PDict d)
      = error_response (lit "Server error: " ++ str_exn (TypeError image_data)) 500
  | Return true =>
      analyze_image (PDict d)
      = error_response
          (lit "Server error: "
           ++ str_exn (AttributeError image_data (lit "split"))) 500
  | Return false =>
      analyze_image (PDict d)
      = error_response (lit "Invalid base64 image data") 400
  end.
Proof.
  intros Himage Hname Hi Hn Hstr.
  unfold analyze_image, analyze_image_try.
  cbn [py_get_method mbind outcome_bind].
  unfold dict_get. rewrite Himage, Hname, Hi, Hn. cbn [negb orb].
  unfold strip_data_url_prefix.
  destruct image_data as [| b | z | f | s | l | m];
    cbn [py_contains mbind outcome_bind]; try done.
  - by destruct (Hstr s).
  - by destruct (existsb _ l).
  - by destruct (bool_decide _).
Qed.

(** X5: for a request with both fields and a payload, the decoder's failure
    is answered 400 "Invalid base64 image data" and the image library's
    failure 400 "Invalid image format". *)
Theorem decode_failures_bad_request
    (d : dict) (image_data object_name payload : pyval) :
  d !! lit "image" = Some image_data →
  d !! lit "object_name" = Some object_name →
  py_bool image_data = true →
  py_bool object_name = true →
  strip_data_url_prefix image_data = Return payload →
  (b64decode payload = None →
     analyze_image (PDict d)
     = error_response (lit "Invalid base64 image data") 400)
  ∧ (∀ image_bytes,
       b64decode payload = Some image_bytes →
       image_open image_bytes = None →
       analyze_image (PDict d)
       = error_response (lit "Invalid image format") 400).
Proof.
  intros Himage Hname Hi Hn Hstrip.
  unfold analyze_image, analyze_image_try.
  cbn [py_get_method mbind outcome_bind].
  unfold dict_get. rewrite Himage, Hname, Hi, Hn. cbn [negb orb].
  rewrite Hstrip. cbn [mbind outcome_bind]. split.
  - by intros ->.
  - by intros image_bytes -> ->.
Qed.

(** X6: when the model call raises, the request is answered 500 with the
    exception's text after "Server error: ". *)
Theorem upstream_failure_server_error
    (d : dict) (image_data object_name payload : pyval)
    (image_bytes : bytes) (img : image) (e : exn) :
  d !! lit "image" = Some image_data →
  d !! lit "object_name" = Some object_name →
  py_bool image_data = true →
  py_bool object_name = true →
  strip_data_url_prefix image_data = Return payload →
  b64decode payload = Some image_bytes →
  image_open image_bytes = Some img →
  generate_content (build_prompt object_name) img = Raise e →
  analyze_image (PDict d)
  = error_response (lit "Server error: " ++ str_exn e) 500.
Proof.
  intros Himage Hname Hi Hn Hstrip Hdecode Hopen Hreply.
  unfold analyze_image, analyze_image_try.
  cbn [py_get_method mbind outcome_bind].
  unfold dict_get. rewrite Himage, Hname, Hi, Hn. cbn [negb orb].
  rewrite Hstrip. cbn [mbind outcome_bind].
  by rewrite Hdecode, Hopen, Hreply.
Qed.

(** X7: when the span of the reply parses to an object, the request is
    answered 200 with the validated object; the keywords of the fallback
    play no part. *)
Theorem parsed_reply_is_validated
    (d r : dict) (image_data object_name payload : pyval)
    (image_bytes : bytes) (img : image) (text span : str) :
  d !! lit "image" = Some image_data →
  d !! lit "object_name" = Some object_name →
  py_bool image_data = true →
  py_bool object_name = true →
  strip_data_url_prefix image_data = Return payload →
  b64decode payload = Some image_bytes →
  image_open image_bytes = Some img →
  generate_content (build_prompt object_name) img = Return text →
  json_match text = Some span →
  json_loads span = Loaded (PDict r) →
  analyze_image (PDict d) = success_response (validate_result r).
Proof.
  intros Himage Hname Hi Hn Hstrip Hdecode Hopen Hreply Hspan Hloads.
  unfold analyze_image, analyze_image_try.
  cbn [py_get_method mbind outcome_bind].
  unfold dict_get. rewrite Himage, Hname, Hi, Hn. cbn [negb orb].
  rewrite Hstrip. cbn [mbind outcome_bind].
  rewrite Hdecode, Hopen, Hreply. cbn [mbind outcome_bind].
  unfold respond, parse_reply. by rewrite Hspan, Hloads.
Qed.

(** X21: when [json.loads] raises anything but [JSONDecodeError] on the span
    (a [ValueError], a [RecursionError]), the fallback is not used: the
    request is answered 500 with the exception's text after
    "Server error: ". *)
Theorem loads_exception_server_error
    (d : dict) (image_data object_name payload : pyval)
    (image_bytes : bytes) (img : image) (text span : str) (e : exn) :
  d !! lit "image" = Some image_data →
  d !! lit "object_name" = Some object_name →
  py_bool image_data = true →
  py_bool object_name = true →
  strip_data_url_prefix image_data = Return payload →
  b64decode payload = Some image_bytes →
  image_open image_bytes = Some img →
  generate_content (build_prompt object_name) img = Return text →
  json_match text = Some span →
  json_loads span = LoadsRaises e →
  analyze_image (PDict d)
  = error_response (lit "Server error: " ++ str_exn e) 500.
Proof.
  intros Himage Hname Hi Hn Hstrip Hdecode Hopen Hreply Hspan Hloads.
  unfold analyze_image, analyze_image_try.
  cbn [py_get_method mbind outcome_bind].
  unfold dict_get. rewrite Himage, Hname, Hi, Hn. cbn [negb orb].
  rewrite Hstrip. cbn [mbind outcome_bind].
  rewrite Hdecode, Hopen, Hreply. cbn [mbind outcome_bind].
  unfold respond, parse_reply. by rewrite Hspan, Hloads.
Qed.

End Handler.

(** * Further properties of validation *)

Lemma valid_confidence_keeps (s : str) :
  s ∈ [lit "high"; lit "medium"; lit "low"] →
  valid_confidence (PStr s) = PStr s.
Proof.
  rewrite !elem_of_cons, elem_of_nil.
  intros [-> | [-> | [-> | []]]]; by vm_compute.
Qed.

Lemma valid_confidence_replaces (x : pyval) :
  (∀ s, s ∈ [lit "high"; lit "medium"; lit "low"] → x ≠ PStr s) →
  valid_confidence x = PStr (lit "medium").
Proof.
  intros Hx. unfold valid_confidence.
  destruct (py_in_strs x _) eqn:E; [|done].
  unfold py_in_strs in E. apply existsb_exists in E as [s [Hs E]].
  unfold py_eq_str in E. destruct x; try done.
  apply bool_decide_eq_true in E as ->.
  apply list_elem_of_In in Hs. by destruct (Hx s Hs).
Qed.

(** X8: validation changes nothing exactly on the well-formed results: no key
    besides the five, a boolean found, a confidence among the three levels, a
    description and a location of any kind, and a list of additional
    objects. *)
Theorem validate_result_fixed_points (r : dict) :
  validate_result r = r ↔
  (∀ k, is_Some (r !! k) →
     k ∈ [lit "found"; lit "confidence"; lit "description"; lit "location";
          lit "additional_objects"])
  ∧ (∃ b, r !! lit "found" = Some (PBool b))
  ∧ (∃ s, s ∈ [lit "high"; lit "medium"; lit "low"]
          ∧ r !! lit "confidence" = Some (PStr s))
  ∧ is_Some (r !! lit "description")
  ∧ is_Some (r !! lit "location")
  ∧ (∃ l, r !! lit "additional_objects" = Some (PList l)).
Proof.
  split.
  - intros Hfix. split_and!.
    + intros k Hk. destruct (decide (k ∈ result_keys)) as [Hin | Hout]; [done|].
      rewrite <- Hfix, (validate_result_other r k Hout) in Hk.
      by destruct Hk.
    + rewrite <- Hfix, validate_result_found. by eexists.
    + rewrite <- Hfix, validate_result_confidence.
      pose proof (valid_confidence_enum
        (dict_get r (lit "confidence") (PStr (lit "medium")))) as H.
      rewrite !elem_of_cons, elem_of_nil in H.
      destruct H as [-> | [-> | [-> | []]]]; eexists; (split; [|done]);
        rewrite !elem_of_cons; auto.
    + rewrite <- Hfix, validate_result_description. by eexists.
    + rewrite <- Hfix, validate_result_location. by eexists.
    + rewrite <- Hfix, validate_result_objects. unfold valid_objects.
      destruct (dict_get r _ _); by eexists.
  - intros (Hkeys & [b Hb] & (s & Hs & Hc) & [x Hx] & [y Hy] & [l Hl]).
    apply map_eq. intros k.
    destruct (decide (k ∈ result_keys)) as [Hin | Hout].
    + unfold result_keys in Hin. rewrite !elem_of_cons, elem_of_nil in Hin.
      destruct Hin as [-> | [-> | [-> | [-> | [-> | []]]]]].
      * rewrite validate_result_found. unfold dict_get. by rewrite Hb.
      * rewrite validate_result_confidence. unfold dict_get. rewrite Hc.
        by rewrite valid_confidence_keeps.
      * rewrite validate_result_description. unfold dict_get. by rewrite Hx.
      * rewrite validate_result_location. unfold dict_get. by rewrite Hy.
      * rewrite validate_result_objects. unfold dict_get. by rewrite Hl.
    + rewrite (validate_result_other r k Hout).
      destruct (r !! k) eqn:E; [|done].
      destruct Hout. apply Hkeys. by eexists.
Qed.

(** X9: field by field.  found is true exactly when the input has a truthy
    found (the string "false" counts as true); a confidence among the three
    levels is kept and anything else, missing included, becomes "medium";
    a description or a location that is present is kept whatever it is, null
    included, and only a missing one gets its default. *)
Theorem validate_result_field_rules (r : dict) :
  let v := validate_result r in
  (v !! lit "found" = Some (PBool true) ↔
     ∃ x, r !! lit "found" = Some x ∧ py_bool x = true)
  ∧ (∀ s, s ∈ [lit "high"; lit "medium"; lit "low"] →
       r !! lit "confidence" = Some (PStr s) →
       v !! lit "confidence" = Some (PStr s))
  ∧ ((r !! lit "confidence" = None
      ∨ ∃ x, r !! lit "confidence" = Some x
             ∧ ∀ s, s ∈ [lit "high"; lit "medium"; lit "low"] → x ≠ PStr s) →
       v !! lit "confidence" = Some (PStr (lit "medium")))
  ∧ (∀ x, r !! lit "description" = Some x → v !! lit "description" = Some x)
  ∧ (r !! lit "description" = None →
       v !! lit "description" = Some (PStr (lit "No description available")))
  ∧ (∀ x, r !! lit "location" = Some x → v !! lit "location" = Some x)
  ∧ (r !! lit "location" = None →
       v !! lit "location" = Some (PStr (lit "Unknown"))).
Proof.
  intros v. subst v.
  rewrite validate_result_found, validate_result_confidence,
    validate_result_description, validate_result_location.
  unfold dict_get. split_and!.
  - destruct (r !! lit "found") as [x|]; cbn [py_bool]; split.
    + intros [= Hx]. by exists x.
    + intros (x' & [= <-] & ->). done.
    + done.
    + by intros (x' & ? & _).
  - intros s Hs ->. by rewrite valid_confidence_keeps.
  - intros [-> | (x & -> & Hx)]; [by vm_compute|].
    by rewrite valid_confidence_replaces.
  - by intros x ->.
  - by intros ->.
  - by intros x ->.
  - by intros ->.
Qed.

Section FallbackValidated.
Context `{RT : Runtime}.

(** X10: a fallback result is already valid: validation returns it
    unchanged. *)
Theorem validate_result_keeps_fallback (text : str) (object_name : pyval) :
  validate_result (create_fallback_result text object_name)
  = create_fallback_result text object_name.
Proof.
  rewrite validate_result_eq. unfold dict_get.
  unfold create_fallback_result at 1 2 3 4 5. lookup_lit.
  cbn [py_bool valid_objects isinstance_list].
  rewrite valid_confidence_keeps by (rewrite !elem_of_cons; auto).
  reflexivity.
Qed.

End FallbackValidated.

(** * Further properties of the span search *)

Lemma re_search_some (pre mid post : str) :
  ∃ span, re_search (pre ++ lbrace :: mid ++ rbrace :: post) = Some span.
Proof.
  induction pre as [|c pre IH].
  - simpl. destruct (greedy_until_rbrace (mid ++ rbrace :: post)) eqn:E.
    + by eexists.
    + apply greedy_none_inv in E. destruct E. set_solver.
  - destruct IH as [span IH]. cbn [app re_search].
    destruct (match_here _); [by eexists|]. by exists span.
Qed.

(** X11: there is no span exactly when no opening brace of the reply is
    followed by a closing brace; a reply without braces, or with its closing
    braces before its opening ones, goes to the fallback. *)
Theorem json_match_none_iff (text : str) :
  json_match text = None ↔
  ¬ ∃ pre mid post, text = pre ++ lbrace :: mid ++ rbrace :: post.
Proof.
  unfold json_match. split.
  - intros Hnone (pre & mid & post & ->).
    destruct (re_search_some pre mid post) as [span Hspan]. congruence.
  - intros Hno. destruct (re_search text) as [span|] eqn:E; [|done].
    destruct (re_search_inv _ _ E) as (pre & mid & post & -> & _).
    destruct Hno. eauto.
Qed.

(** X12: the span is stable: searching the span again finds the span
    itself. *)
Theorem json_match_span_stable (text span : str) :
  json_match text = Some span → json_match span = Some span.
Proof.
  unfold json_match. intros Hspan.
  destruct (re_search_inv _ _ Hspan) as (pre & mid & post & _ & -> & _).
  apply (re_search_first_to_last [] mid []); apply not_elem_of_nil.
Qed.

Lemma closing_from_inv (depth : nat) (s m : str) :
  closing_from depth s = Some m →
  ∃ m0 post, s = m ++ post ∧ m = m0 ++ [rbrace].
Proof.
  revert depth m. induction s as [|c s IH]; intros depth m; [done|].
  cbn [closing_from].
  destruct (N.eqb_spec c lbrace) as [-> | Hl].
  - destruct (closing_from (S depth) s) as [m'|] eqn:E; [|done].
    intros [= <-]. destruct (IH _ _ E) as (m0 & post & -> & ->).
    by exists (lbrace :: m0), post.
  - destruct (N.eqb_spec c rbrace) as [-> | Hr].
    + destruct depth as [|depth].
      * intros [= <-]. by exists [], s.
      * destruct (closing_from depth s) as [m'|] eqn:E; [|done].
        intros [= <-]. destruct (IH _ _ E) as (m0 & post & -> & ->).
        by exists (rbrace :: m0), post.
    + destruct (closing_from depth s) as [m'|] eqn:E; [|done].
      intros [= <-]. destruct (IH _ _ E) as (m0 & post & -> & ->).
      by exists (c :: m0), post.
Qed.

Lemma first_balanced_span_inv (text b : str) :
  first_balanced_span text = Some b →
  ∃ pre m0 post,
    text = pre ++ b ++ post ∧ b = lbrace :: (m0 ++ [rbrace]) ∧ lbrace ∉ pre.
Proof.
  revert b. induction text as [|c text IH]; intros b; [done|].
  cbn [first_balanced_span].
  destruct (N.eqb_spec c lbrace) as [-> | Hc].
  - destruct (closing_from 0 text) as [m|] eqn:E; [|done].
    intros [= <-]. destruct (closing_from_inv _ _ _ E) as (m0 & post & -> & ->).
    exists [], m0, post. split_and!; [done | done | apply not_elem_of_nil].
  - intros Hb. destruct (IH _ Hb) as (pre & m0 & post & -> & -> & Hpre).
    exists (c :: pre), m0, post. split_and!; [done | done |].
    apply not_elem_of_cons. auto.
Qed.

(** X13: the span of the code against the balanced span of the
    specification: when the reply has a balanced span, the code finds a span
    that begins at the same brace and has the balanced span as a prefix, and
    the two are the same exactly when no closing brace comes after the
    balanced span. *)
Theorem json_match_extends_balanced_span (text b : str) :
  first_balanced_span text = Some b →
  ∃ pre post g,
    text = pre ++ b ++ post
    ∧ json_match text = Some g
    ∧ b `prefix_of` g
    ∧ (∃ tail, text = pre ++ g ++ tail)
    ∧ (g = b ↔ rbrace ∉ post).
Proof.
  intros Hb. unfold json_match.
  destruct (first_balanced_span_inv _ _ Hb) as (pre & m0 & post & -> & -> & Hpre).
  exists pre, post.
  destruct (decide (rbrace ∈ post)) as [Hin | Hout].
  - apply list_elem_of_split_r in Hin as (p1 & p2 & -> & Hp2).
    exists (lbrace :: ((m0 ++ rbrace :: p1) ++ [rbrace])). split_and!.
    + done.
    + rewrite <- (re_search_first_to_last pre (m0 ++ rbrace :: p1) p2) by done.
      f_equal. simpl. by rewrite <- !app_assoc.
    + exists (p1 ++ [rbrace]). simpl. by rewrite <- !app_assoc.
    + exists p2. simpl. by rewrite <- !app_assoc.
    + split.
      * intros Heq. apply (f_equal length) in Heq.
        simpl in Heq. rewrite !length_app in Heq. simpl in Heq. lia.
      * intros Hno. destruct Hno. set_solver.
  - exists (lbrace :: (m0 ++ [rbrace])). split_and!.
    + done.
    + rewrite <- (re_search_first_to_last pre m0 post) by done.
      f_equal. simpl. by rewrite <- !app_assoc.
    + done.
    + by exists post.
    + done.
Qed.

(** * Further properties of the fallback, of the prefix and of the prompt *)

Lemma contains_trans (a b t : str) : contains a b → contains b t → contains a t.
Proof.
  intros (p1 & q1 & ->) (p2 & q2 & ->).
  exists (p2 ++ p1), (q1 ++ q2). by rewrite <- !app_assoc.
Qed.

Section Keywords.
Context `{RT : Runtime}.

(** X14: the two letters "no" decide the negative scan together with
    "absent" and "false": "not found" and "cannot" contain "no", so they add
    nothing, and any word with "no" inside it ("know", "another", "snow")
    makes found false. *)
Theorem fallback_negative_is_no_absent_false (text : str) (object_name : pyval) :
  let result := create_fallback_result text object_name in
  let text_lower := str_lower text in
  (result !! lit "found" = Some (PBool true) ↔
     (∃ k, k ∈ [lit "yes"; lit "found"; lit "present"; lit "visible";
                lit "see"; lit "true"] ∧ contains k text_lower)
     ∧ ¬ contains (lit "no") text_lower
     ∧ ¬ contains (lit "absent") text_lower
     ∧ ¬ contains (lit "false") text_lower)
  ∧ (∀ word, contains (lit "no") word → contains word text_lower →
       result !! lit "found" = Some (PBool false)).
Proof.
  intros result text_lower. subst result text_lower.
  rewrite fallback_lookup_found. split.
  - transitivity (fallback_found text = true);
      [split; [congruence | by intros ->]|].
    rewrite fallback_found_true. unfold not_found_keywords.
    split; intros [Hpos Hneg]; (split; [exact Hpos|]).
    + split_and!; apply Hneg; rewrite !elem_of_cons; auto 10.
    + destruct Hneg as (Hno & Habsent & Hfalse). intros k Hk.
      rewrite !elem_of_cons, elem_of_nil in Hk.
      destruct Hk as [-> | [-> | [-> | [-> | [-> | []]]]]]; try done.
      * intros Hc. apply Hno. apply (contains_trans _ (lit "not found")); [|done].
        by exists [], (lit "t found").
      * intros Hc. apply Hno. apply (contains_trans _ (lit "cannot")); [|done].
        by exists (lit "can"), (lit "t").
  - intros word Hno Hword. rewrite fallback_found_negative; [done|].
    exists (lit "no"). split.
    + unfold not_found_keywords. rewrite !elem_of_cons. auto.
    + by apply (contains_trans _ word).
Qed.

End Keywords.

Lemma str_split_head (sep : N) (s seg : str) (rest : list str) :
  str_split sep s = seg :: rest →
  (sep ∉ seg)
  ∧ ((rest = [] ∧ s = seg)
     ∨ ∃ s', s = seg ++ sep :: s' ∧ str_split sep s' = rest).
Proof.
  revert seg rest. induction s as [|c s IH]; intros seg rest.
  - intros [= <- <-]. split; [apply not_elem_of_nil | by left].
  - cbn [str_split]. destruct (N.eqb_spec c sep) as [-> | Hc].
    + intros [= <- <-]. split; [apply not_elem_of_nil|]. right. by exists s.
    + destruct (str_split sep s) as [|x xs] eqn:E.
      * by apply str_split_not_nil in E.
      * intros [= <- <-]. destruct (IH x xs eq_refl) as [Hx Hs]. split.
        -- apply not_elem_of_cons. auto.
        -- destruct Hs as [[-> ->] | (s' & -> & Hs')]; [by left|].
           right. by exists s'.
Qed.

(** X15: on an image string, stripping never raises.  Without a comma the
    string goes to the decoder as it is; with one, what goes to the decoder
    holds no comma: it is the part after the first comma, up to the next
    comma or to the end. *)
Theorem strip_data_url_prefix_payload (s : str) :
  ∃ payload,
    strip_data_url_prefix (PStr s) = Return (PStr payload)
    ∧ (comma ∉ s → payload = s)
    ∧ (comma ∈ s →
         (comma ∉ payload)
         ∧ ∃ pre rest,
             s = pre ++ comma :: payload ++ rest ∧ (comma ∉ pre)
             ∧ (rest = [] ∨ ∃ rest', rest = comma :: rest')).
Proof.
  destruct (decide (comma ∈ s)) as [Hs | Hs].
  - pose proof Hs as Hin.
    apply list_elem_of_split_l in Hs as (pre & tail & -> & Hpre).
    destruct (str_split comma tail) as [|seg rest] eqn:E.
    { by apply str_split_not_nil in E. }
    exists seg. split_and!.
    + by apply (strip_to_next_comma pre seg rest).
    + done.
    + intros _. destruct (str_split_head _ _ _ _ E) as [Hseg Htail].
      split; [done|]. exists pre.
      destruct Htail as [[_ ->] | (s' & -> & _)].
      * exists []. rewrite app_nil_r. auto.
      * exists (comma :: s'). split_and!; [done | done |]. right. by eexists.
  - exists s. split_and!; [by apply strip_no_comma | done | done].
Qed.

(** X16: different object names give different prompts, and the prompt is
    673 characters longer than two copies of the name. *)
Theorem build_prompt_injective `{RT : Runtime} (s1 s2 : str) :
  (build_prompt (PStr s1) = build_prompt (PStr s2) ↔ s1 = s2)
  ∧ length (build_prompt (PStr s1)) = 2 * length s1 + 673.
Proof.
  assert (∀ s, length (build_prompt (PStr s)) = 2 * length s + 673) as Hlen.
  { intros s. unfold build_prompt. cbn [format_value].
    rewrite !length_app. vm_compute (length (litq _)).
    vm_compute (length (lit _)). vm_compute (length nl). lia. }
  split; [|apply Hlen]. split; [|by intros ->].
  intros Heq. pose proof (f_equal length Heq) as Hl. rewrite !Hlen in Hl.
  unfold build_prompt in Heq. cbn [format_value] in Heq.
  apply app_inv_head in Heq. apply app_inj_1 in Heq; [|lia]. by destruct Heq.
Qed.

(** X17: the health check answers 200 and tells whether the key differs from
    the placeholder, and nothing else about the key: any two keys that are
    not the placeholder get the same response. *)
Theorem health_check_hides_key (k1 k2 : str) :
  status (health_check k1) = 200%Z
  ∧ (body (health_check k1) !! lit "api_configured" = Some (PBool true) ↔
       k1 ≠ lit "Your-API-Key")
  ∧ (body (health_check k1) !! lit "api_configured" = Some (PBool false) ↔
       k1 = lit "Your-API-Key")
  ∧ (k1 ≠ lit "Your-API-Key" → k2 ≠ lit "Your-API-Key" →
       health_check k1 = health_check k2).
Proof.
  unfold health_check, api_key_placeholder. cbn [status body]. lookup_lit.
  split_and!.
  - done.
  - case_bool_decide; cbn [negb]; split; congruence.
  - case_bool_decide; cbn [negb]; split; congruence.
  - intros H1 H2. by rewrite !bool_decide_eq_false_2.
Qed.

(** * The further properties on concrete requests *)

Lemma missing_fields_bad_request_witness :
  let RT := example_runtime (Return []) in
  let d : dict :=
    <[lit "image" := PStr []]> (<[lit "object_name" := PStr (lit "cat")]> ∅) in
  py_bool (dict_get d (lit "image") PNone) = false
  ∧ status (analyze_image (PDict d)) = 400%Z.
Proof.
  intros RT d. split; [by vm_compute|].
  rewrite (@missing_fields_bad_request RT d); [done|].
  left. by vm_compute.
Defined.

Lemma non_object_body_server_error_witness :
  let RT := example_runtime (Return []) in
  status (analyze_image (PList [PStr (lit "image")])) = 500%Z.
Proof.
  intros RT.
  by rewrite (@non_object_body_server_error RT (PList [PStr (lit "image")])).
Defined.

Lemma non_string_image_rejected_witness :
  let RT := example_runtime (Return []) in
  let numeric : dict :=
    <[lit "image" := PInt 123]> (<[lit "object_name" := PStr (lit "cat")]> ∅) in
  let listed : dict :=
    <[lit "image" := PList [PInt 1]]> (
    <[lit "object_name" := PStr (lit "cat")]> ∅) in
  status (analyze_image (PDict numeric)) = 500%Z
  ∧ status (analyze_image (PDict listed)) = 400%Z.
Proof.
  intros RT numeric listed. split.
  - pose proof (@non_string_image_rejected RT numeric (PInt 123)
      (PStr (lit "cat"))) as H.
    cbn [py_contains] in H. rewrite H; try done; by vm_compute.
  - pose proof (@non_string_image_rejected RT listed (PList [PInt 1])
      (PStr (lit "cat"))) as H.
    cbn [py_contains existsb py_eq_str orb] in H.
    rewrite H; try done; by vm_compute.
Defined.

Lemma decode_failures_bad_request_witness :
  let RT := example_runtime (Return []) in
  let undecodable : dict :=
    <[lit "image" := PStr (lit "data:image/png;base64,not base64!")]> (
    <[lit "object_name" := PStr (lit "cat")]> ∅) in
  let unreadable : dict :=
    <[lit "image" := PStr (lit "AAAA")]> (
    <[lit "object_name" := PStr (lit "cat")]> ∅) in
  analyze_image (PDict undecodable)
  = error_response (lit "Invalid base64 image data") 400
  ∧ analyze_image (PDict unreadable)
    = error_response (lit "Invalid image format") 400.
Proof.
  intros RT undecodable unreadable. split.
  - apply (@decode_failures_bad_request RT undecodable
      (PStr (lit "data:image/png;base64,not base64!")) (PStr (lit "cat"))
      (PStr (lit "not base64!"))); by vm_compute.
  - apply (@decode_failures_bad_request RT unreadable
      (PStr (lit "AAAA")) (PStr (lit "cat")) (PStr (lit "AAAA")))
      with (image_bytes := byte_of_N <$> [0; 0; 0]%N); by vm_compute.
Defined.

Lemma upstream_failure_server_error_witness :
  let RT := example_runtime (Raise (UpstreamError (lit "quota exceeded"))) in
  analyze_image (PDict cat_request)
  = error_response (lit "Server error: quota exceeded") 500.
Proof.
  intros RT.
  rewrite (@upstream_failure_server_error RT cat_request
    (PStr (lit "data:image/png;base64,iVBORw0KGgo=")) (PStr (lit "cat"))
    (PStr (lit "iVBORw0KGgo=")) (byte_of_N <$> png_signature)
    (byte_of_N <$> png_signature) (UpstreamError (lit "quota exceeded")));
    by vm_compute.
Defined.

Lemma parsed_reply_is_validated_witness :
  let reply := litq "It is not found. {`found`: 1, `confidence`: `high`}" in
  let RT := example_runtime (Return reply) in
  body (analyze_image (PDict cat_request)) !! lit "result"
  = Some (PDict (
      <[lit "found" := PBool true]> (
      <[lit "confidence" := PStr (lit "high")]> (
      <[lit "description" := PStr (lit "No description available")]> (
      <[lit "location" := PStr (lit "Unknown")]> (
      <[lit "additional_objects" := PList []]> ∅)))))).
Proof.
  intros reply RT.
  rewrite (@parsed_reply_is_validated RT cat_request
    (<[lit "found" := PInt 1]> (<[lit "confidence" := PStr (lit "high")]> ∅))
    (PStr (lit "data:image/png;base64,iVBORw0KGgo=")) (PStr (lit "cat"))
    (PStr (lit "iVBORw0KGgo=")) (byte_of_N <$> png_signature)
    (byte_of_N <$> png_signature) reply
    (litq "{`found`: 1, `confidence`: `high`}")); by vm_compute.
Defined.

Lemma json_match_span_stable_witness :
  json_match (lit "Here {a {b} c} and } more") = Some (lit "{a {b} c} and }")
  ∧ json_match (lit "{a {b} c} and }") = Some (lit "{a {b} c} and }").
Proof.
  split; [by vm_compute|].
  apply (json_match_span_stable (lit "Here {a {b} c} and } more")).
  by vm_compute.
Defined.

Lemma json_match_extends_balanced_span_witness :
  first_balanced_span (lit "Here {a {b} c} and } more") = Some (lit "{a {b} c}")
  ∧ ∃ pre post g,
      lit "Here {a {b} c} and } more" = pre ++ lit "{a {b} c}" ++ post
      ∧ json_match (lit "Here {a {b} c} and } more") = Some g
      ∧ lit "{a {b} c}" `prefix_of` g
      ∧ (∃ tail, lit "Here {a {b} c} and } more" = pre ++ g ++ tail)
      ∧ (g = lit "{a {b} c}" ↔ rbrace ∉ post).
Proof.
  split; [by vm_compute|].
  apply (json_match_extends_balanced_span (lit "Here {a {b} c} and } more")).
  by vm_compute.
Defined.

Lemma strip_one_comma_witness :
  strip_data_url_prefix (PStr (lit "data:image/png;base64,iVBORw0KGgo="))
  = Return (PStr (lit "iVBORw0KGgo="))
  ∧ after_first comma (lit "data:image/png;base64,iVBORw0KGgo=")
    = lit "iVBORw0KGgo=".
Proof.
  apply (strip_one_comma (lit "data:image/png;base64") (lit "iVBORw0KGgo="));
    vm_compute; by repeat (apply not_elem_of_cons; split; [done|]);
    try apply not_elem_of_nil.
Defined.

Lemma loads_exception_server_error_witness :
  let reply :=
    lit "Counted: " ++ litq "{`n`: [1, " ++ replicate 4400 57%N ++ lit "]}" in
  let RT := example_runtime (Return reply) in
  analyze_image (PDict cat_request)
  = error_response
      (lit "Server error: Exceeds the limit (4300 digits) for integer string conversion")
      500.
Proof.
  intros reply RT.
  rewrite (@loads_exception_server_error RT cat_request
    (PStr (lit "data:image/png;base64,iVBORw0KGgo=")) (PStr (lit "cat"))
    (PStr (lit "iVBORw0KGgo=")) (byte_of_N <$> png_signature)
    (byte_of_N <$> png_signature) reply
    (litq "{`n`: [1, " ++ replicate 4400 57%N ++ lit "]}")
    (ValueError
       (lit "Exceeds the limit (4300 digits) for integer string conversion")));
    by vm_compute.
Defined.
